(** * geminiService.ts: prompt construction, response parsing and image calls

    A shallow embedding of [src/services/geminiService.ts].

    Strings.  A JavaScript string is modelled as a Rocq [string]; each
    [ascii] stands for one code unit in the range U+0000..U+00FF.  On that
    range [toLowerCase], [trim], the class [\s] and the case folding of the
    [/i] flag are written out exactly as ECMAScript defines them.

    Regular expressions.  The four regular-expression literals of the file
    are given as syntax trees and run by a backtracking matcher that follows
    the continuation-passing pattern semantics of ECMAScript.

    The provider.  Awaiting [generateContent] is the only effect.  An
    operation is a small program that returns, throws, or awaits one call;
    [run] executes it against a provider, a function from the request to
    either a response or a transport error, and [sent] lists the requests
    it makes. *)

From Stdlib Require Import Bool Arith Lia List NArith QArith.
From Stdlib Require Import Ascii String.
Import ListNotations.

Local Close Scope Q_scope.

Local Open Scope list_scope.
Local Open Scope string_scope.

Set Implicit Arguments.

(* ================================================================== *)
(** * JavaScript string primitives *)
(* ================================================================== *)

Module JsString.

Definition LF : ascii := ascii_of_nat 10.
Definition DQUOTE : ascii := ascii_of_nat 34.

(** One-character strings for the two characters that a literal of this
    file does not spell. *)
Definition nl : string := String LF "".
Definition dq : string := String DQUOTE "".

Definition code (c : ascii) : N := N_of_ascii c.

(** WhiteSpace and LineTerminator code points below U+0100: TAB, LF, VT,
    FF, CR, SP and NBSP.  This is the set of [\s] and of [trim]. *)
Definition isWhiteSpace (c : ascii) : bool :=
  let n := code c in
  ((9 <=? n) && (n <=? 13) || (n =? 32) || (n =? 160))%N.

(** [String.prototype.toLowerCase] on one code unit: A-Z, and the
    Latin-1 capitals U+00C0..U+00DE except the multiplication sign. *)
Definition lowerChar (c : ascii) : ascii :=
  let n := code c in
  if ((65 <=? n) && (n <=? 90))%N then ascii_of_N (n + 32)
  else if ((192 <=? n) && (n <=? 222) && negb (n =? 215))%N
       then ascii_of_N (n + 32)
       else c.

(** [Canonicalize] of the pattern semantics under [/i] without [/u]: the
    upper-case mapping of the code unit when that is a single code unit,
    unless it would send a non-ASCII unit into ASCII.  The result may
    leave the 8-bit range (U+00FF gives U+0178, U+00B5 gives U+039C), so
    it is a number. *)
Definition canonicalize (c : ascii) : N :=
  let n := code c in
  if ((97 <=? n) && (n <=? 122))%N then (n - 32)%N
  else if ((224 <=? n) && (n <=? 254) && negb (n =? 247))%N then (n - 32)%N
  else if (n =? 255)%N then 376%N
  else if (n =? 181)%N then 924%N
  else n.

Fixpoint mapChars (f : ascii -> ascii) (s : string) : string :=
  match s with
  | EmptyString => EmptyString
  | String c t => String (f c) (mapChars f t)
  end.

Definition toLowerCase (s : string) : string := mapChars lowerChar s.

Fixpoint trimStart (s : string) : string :=
  match s with
  | EmptyString => EmptyString
  | String c t => if isWhiteSpace c then trimStart t else s
  end.

Fixpoint trimEnd (s : string) : string :=
  match s with
  | EmptyString => EmptyString
  | String c t =>
      match trimEnd t with
      | EmptyString => if isWhiteSpace c then EmptyString else String c EmptyString
      | t' => String c t'
      end
  end.

Definition trim (s : string) : string := trimEnd (trimStart s).

(** [s.includes(needle)] *)
Fixpoint includes (needle s : string) : bool :=
  prefix needle s ||
  match s with
  | EmptyString => false
  | String _ t => includes needle t
  end.

(** [s.split(sep)] for a one-character separator. *)
Fixpoint split (sep : ascii) (s : string) : list string :=
  match s with
  | EmptyString => [EmptyString]
  | String c t =>
      if Ascii.eqb c sep then EmptyString :: split sep t
      else match split sep t with
           | h :: r => String c h :: r
           | [] => [String c EmptyString]
           end
  end.

Fixpoint take (n : nat) (s : string) : string :=
  match n, s with
  | S n', String c t => String c (take n' t)
  | _, _ => EmptyString
  end.

Fixpoint drop (n : nat) (s : string) : string :=
  match n, s with
  | S n', String _ t => drop n' t
  | _, _ => s
  end.

(** JavaScript truthiness of an optional string: [undefined] and the
    empty string are falsy. *)
Definition truthy (o : option string) : bool :=
  match o with
  | Some (String _ _) => true
  | _ => false
  end.

End JsString.

(* ================================================================== *)
(** * Regular expressions: syntax and backtracking matcher *)
(* ================================================================== *)

Module Regex.
Import JsString.

Inductive regex : Type :=
| Empty
| Char (c : ascii)                  (* a pattern character *)
| Class (p : ascii -> bool)         (* a character class *)
| Seq (r1 r2 : regex)
| Alt (r1 r2 : regex)               (* r1|r2, left tried first *)
| Star (greedy : bool) (r : regex)  (* r* and r*? *)
| Group (n : nat) (r : regex)       (* the n-th capturing parentheses *)
| LookAhead (r : regex)             (* (?=r) *)
| AssertStart                       (* ^ without the m flag *)
| AssertEnd.                        (* $ without the m flag *)

(** A literal run of pattern characters. *)
Fixpoint lit (s : string) : regex :=
  match s with
  | EmptyString => Empty
  | String c t => Seq (Char c) (lit t)
  end.

(** The capture indices that occur in a pattern. *)
Fixpoint groups (r : regex) : list nat :=
  match r with
  | Seq a b | Alt a b => (groups a ++ groups b)%list
  | Star _ a | LookAhead a => groups a
  | Group n a => n :: groups a
  | _ => []
  end.

(** The match state: the index reached, the input from there on, and the
    captures made so far ([None] stands for [undefined]). *)
Record MatchState : Type := mkState {
  endIndex : nat;
  rest : string;
  captures : list (nat * option string)
}.

Definition Continuation : Type := MatchState -> option MatchState.

Definition setCapture (n : nat) (v : option string)
           (caps : list (nat * option string)) : list (nat * option string) :=
  (n, v) :: filter (fun e => negb (Nat.eqb (fst e) n)) caps.

Fixpoint getCapture (n : nat) (caps : list (nat * option string)) : option string :=
  match caps with
  | [] => None
  | (m, v) :: t => if Nat.eqb m n then v else getCapture n t
  end.

Definition clearCaptures (ns : list nat) (x : MatchState) : MatchState :=
  mkState (endIndex x) (rest x)
          (filter (fun e => negb (existsb (Nat.eqb (fst e)) ns)) (captures x)).

(** The character comparison: exact, or up to [canonicalize] under [/i]. *)
Definition charMatches (ignoreCase : bool) (pat inp : ascii) : bool :=
  if ignoreCase then N.eqb (canonicalize pat) (canonicalize inp)
  else Ascii.eqb pat inp.

Definition step1 (ok : ascii -> bool) (k : Continuation) (x : MatchState)
  : option MatchState :=
  match rest x with
  | EmptyString => None
  | String a t =>
      if ok a then k (mkState (S (endIndex x)) t (captures x)) else None
  end.

(** RepeatMatcher with min 0 and no upper bound.  An iteration that does
    not advance fails, so the input left bounds the iterations: [fuel] is
    started above its length. *)
Fixpoint repeatMatcher (m : Continuation -> Continuation) (greedy : bool)
         (inner : list nat) (fuel : nat) (k : Continuation) (x : MatchState)
  : option MatchState :=
  match fuel with
  | O => None
  | S fuel' =>
      let d : Continuation := fun y =>
        if Nat.eqb (endIndex y) (endIndex x) then None
        else repeatMatcher m greedy inner fuel' k y in
      let xr := clearCaptures inner x in
      if greedy then
        match m d xr with
        | Some z => Some z
        | None => k x
        end
      else
        match k x with
        | Some z => Some z
        | None => m d xr
        end
  end.

Fixpoint matcher (ignoreCase : bool) (r : regex) (k : Continuation)
         (x : MatchState) {struct r} : option MatchState :=
  match r with
  | Empty => k x
  | Char c => step1 (charMatches ignoreCase c) k x
  | Class p => step1 p k x
  | Seq r1 r2 => matcher ignoreCase r1 (matcher ignoreCase r2 k) x
  | Alt r1 r2 =>
      match matcher ignoreCase r1 k x with
      | Some z => Some z
      | None => matcher ignoreCase r2 k x
      end
  | Star greedy r' =>
      repeatMatcher (matcher ignoreCase r') greedy (groups r')
                    (S (length (rest x))) k x
  | Group n r' =>
      matcher ignoreCase r'
        (fun y => k (mkState (endIndex y) (rest y)
                       (setCapture n
                          (Some (take (endIndex y - endIndex x) (rest x)))
                          (captures y))))
        x
  | LookAhead r' =>
      match matcher ignoreCase r' (fun y => Some y) x with
      | Some y => k (mkState (endIndex x) (rest x) (captures y))
      | None => None
      end
  | AssertStart => if Nat.eqb (endIndex x) 0 then k x else None
  | AssertEnd =>
      match rest x with
      | EmptyString => k x
      | String _ _ => None
      end
  end.

(** A compiled literal: the pattern, its [i] flag. *)
Record RegExp : Type := mkRegExp {
  pattern : regex;
  ignoreCaseFlag : bool
}.

(** The result of a successful match: where it starts, where it ends, and
    the captures; index 0 of the JavaScript array is the matched text. *)
Record MatchResult : Type := mkResult {
  index : nat;
  lastIndex : nat;
  caps : list (nat * option string)
}.

(** [RegExpBuiltinExec] without the g and y flags: the start index runs
    from 0 upwards until the pattern matches there. *)
Fixpoint searchFrom (re : RegExp) (i : nat) (s : string) : option MatchResult :=
  match matcher (ignoreCaseFlag re) (pattern re) (fun y => Some y)
                (mkState i s []) with
  | Some y => Some (mkResult i (endIndex y) (captures y))
  | None =>
      match s with
      | EmptyString => None
      | String _ t => searchFrom re (S i) t
      end
  end.

(** [s.match(re)] for a pattern without the g flag. *)
Definition exec (re : RegExp) (s : string) : option MatchResult :=
  searchFrom re 0 s.

(** [m[n]] for n >= 1. *)
Definition group (n : nat) (m : MatchResult) : option string :=
  getCapture n (caps m).

(** [s.replace(re, '')] for a pattern without the g flag: the first match
    is cut out. *)
Definition replaceWithEmpty (re : RegExp) (s : string) : string :=
  match exec re s with
  | Some m => take (index m) s ++ drop (lastIndex m) s
  | None => s
  end.

End Regex.

(* ================================================================== *)
(** * The provider's data: requests, responses, errors *)
(* ================================================================== *)

Module GenAI.

(** What a call can throw: the [Error] objects the file constructs, the
    [TypeError] of a property read on [undefined], and whatever the
    provider rejects with. *)
Inductive JsError : Type :=
| Error (message : string)
| TypeError (message : string)
| ProviderError (detail : string).

Inductive Outcome (A : Type) : Type :=
| Ok (a : A)
| Throw (e : JsError).

Arguments Ok {A} a.
Arguments Throw {A} e.

Definition bind {A B : Type} (c : Outcome A) (f : A -> Outcome B) : Outcome B :=
  match c with
  | Ok a => f a
  | Throw e => Throw e
  end.

Record Blob : Type := mkBlob {
  mimeType : option string;
  data : option string
}.

Record Part : Type := mkPart {
  partText : option string;
  inlineData : option Blob
}.

Record Content : Type := mkContent {
  parts : option (list Part)
}.

Record GroundingChunkWeb : Type := mkWeb {
  uri : option string;
  webTitle : option string
}.

Record GroundingChunk : Type := mkChunk {
  web : option GroundingChunkWeb
}.

Record GroundingMetadata : Type := mkGrounding {
  groundingChunks : option (list GroundingChunk)
}.

Record Candidate : Type := mkCandidate {
  content : option Content;
  groundingMetadata : option GroundingMetadata
}.

(** [text] is the response's text accessor; it is kept as a field of its
    own, so every pairing of text and candidates is covered. *)
Record GenerateContentResponse : Type := mkResponse {
  text : option string;
  candidates : option (list Candidate)
}.

Inductive Tool : Type :=
| GoogleSearch.

Record GenerateContentConfig : Type := mkConfig {
  tools : option (list Tool);
  temperature : option Q;
  topK : option Q;
  topP : option Q
}.

Inductive ContentUnion : Type :=
| ContentString (s : string)
| ContentParts (ps : list Part).

Record GenerateContentParameters : Type := mkParams {
  model : string;
  contents : ContentUnion;
  config : option GenerateContentConfig
}.

(** An [async] function of the file: it returns, throws, or awaits
    [getAi().models.generateContent(request)] and goes on with the
    response. *)
Inductive Async (A : Type) : Type :=
| Return (a : A)
| Reject (e : JsError)
| Await (request : GenerateContentParameters)
        (k : GenerateContentResponse -> Async A).

Arguments Return {A} a.
Arguments Reject {A} e.
Arguments Await {A} request k.

(** Synchronous code inside an [async] function. *)
Definition settle {A : Type} (c : Outcome A) : Async A :=
  match c with
  | Ok a => Return a
  | Throw e => Reject e
  end.

(** The provider: what the awaited call yields or throws for a request. *)
Definition Provider : Type :=
  GenerateContentParameters -> Outcome GenerateContentResponse.

(** Running an [async] function against a provider. *)
Fixpoint run {A : Type} (generateContent : Provider) (p : Async A) : Outcome A :=
  match p with
  | Return a => Ok a
  | Reject e => Throw e
  | Await request k =>
      match generateContent request with
      | Ok response => run generateContent (k response)
      | Throw e => Throw e
      end
  end.

(** The requests a run sends, in order. *)
Fixpoint sent {A : Type} (generateContent : Provider) (p : Async A)
  : list GenerateContentParameters :=
  match p with
  | Return _ | Reject _ => []
  | Await request k =>
      request ::
      match generateContent request with
      | Ok response => sent generateContent (k response)
      | Throw _ => []
      end
  end.

End GenAI.

Declare Scope outcome_scope.
Delimit Scope outcome_scope with outcome.
Notation "x <- c ;; k" := (GenAI.bind c (fun x => k))
  (at level 61, c at next level, right associativity) : outcome_scope.

(* ================================================================== *)
(** * geminiService.ts *)
(* ================================================================== *)

Module GeminiService.
Import JsString Regex GenAI.
Local Open Scope outcome_scope.

Definition TEXT_MODEL : string := "gemini-2.5-flash".
Definition IMAGE_MODEL : string := "gemini-2.5-flash-image".
Definition EDIT_MODEL : string := "gemini-2.5-flash-image".

(** [ComplexityLevel], [VisualStyle] and [Language] are string types of
    [../types]; at run time they are strings, and the two [switch]
    statements compare them with [===]. *)
Definition ComplexityLevel : Type := string.
Definition VisualStyle : Type := string.
Definition Language : Type := string.

Definition getLevelInstruction (level : ComplexityLevel) : string :=
  if level =? "Elementary" then
    "Target Audience: Elementary School (Ages 6-10). Design Requirements: Extra large, bold text (minimum 24pt equivalent). Bright primary colors. Simple geometric icons and illustrations. Maximum 3-5 key points. Wide spacing between elements. Playful but clear layout. Minimal technical jargon."
  else if level =? "High School" then
    "Target Audience: High School (Ages 14-18). Design Requirements: Clear, readable text (18-22pt equivalent). Balanced color scheme. Mix of diagrams, charts, and illustrations. Include 5-8 key concepts. Standard infographic layout with sections. Some technical terms with visual explanations."
  else if level =? "College" then
    "Target Audience: University/College (Ages 18-25). Design Requirements: Detailed text (14-18pt equivalent). Professional color palette. Complex diagrams, data visualizations, and cross-sections. Include 8-12 detailed points. Dense but organized layout. Technical terminology with precise labels."
  else if level =? "Expert" then
    "Target Audience: Industry Expert/Professional. Design Requirements: Technical precision text (12-16pt equivalent). Sophisticated color scheme or monochrome. Highly detailed schematics, blueprints, and technical diagrams. Include 12+ comprehensive points. Dense information with hierarchical organization. Advanced technical terminology and precise annotations."
  else
    "Target Audience: General Public. Design Requirements: Clear, accessible design with readable text and balanced complexity.".

Definition getStyleInstruction (style : VisualStyle) : string :=
  if style =? "Minimalist" then
    "Aesthetic: Bauhaus Minimalist. Flat vector art with crisp edges. Limited color palette (2-3 bold colors). Heavy use of negative white space. Simple geometric shapes (circles, squares, lines). Sans-serif typography. Grid-based layout. High contrast. Ultra-clean composition."
  else if style =? "Realistic" then
    "Aesthetic: Photorealistic Composite. Professional photography style. Natural lighting and shadows. 8K resolution detail. Highly detailed textures and materials. Depth of field. Looks like a high-end magazine photo spread with real objects and environments."
  else if style =? "Cartoon" then
    "Aesthetic: Modern Educational Comic. Vibrant saturated colors. Bold black outlines (2-3px). Cel-shaded flat colors with simple highlights. Expressive character-like elements. Dynamic compositions. Speech bubbles or callouts. Friendly and engaging visual narrative style."
  else if style =? "Vintage" then
    "Aesthetic: 19th Century Scientific Lithograph. Hand-engraved appearance. Sepia, cream, and brown tones. Aged paper texture background. Fine cross-hatching and stippling. Ornate borders and decorative elements. Classical typography. Museum-quality historical scientific illustration."
  else if style =? "Futuristic" then
    "Aesthetic: Cyberpunk HUD Interface. Dark background (black or deep blue). Glowing neon lines (cyan, blue, magenta). Holographic translucent panels. Digital grid overlays. 3D wireframe elements. Geometric tech patterns. Sci-fi dashboard aesthetic with digital readouts and data streams."
  else if style =? "3D Render" then
    "Aesthetic: 3D Isometric Render. Clean isometric perspective. Smooth gradients and soft shadows. Glossy plastic or claymorphism materials. Studio lighting with rim lights. Soft ambient occlusion. Looks like a high-quality physical model or toy. Rounded corners and friendly shapes."
  else if style =? "Sketch" then
    "Aesthetic: Technical Blueprint/Da Vinci Notebook. Pen and ink style on cream parchment. Hand-drawn appearance with consistent line weight. Handwritten-style annotations and labels. Construction lines visible. Cross-sections and technical details. Looks like an architect's or inventor's working sketch."
  else
    "Aesthetic: Modern Scientific Infographic. Clean digital illustration. Professional color palette. Clear hierarchy. Mix of icons, diagrams, and data visualizations. Contemporary design trends. Publication-quality. Balanced composition with proper spacing.".

(** The template literal of [researchTopicForPrompt], line by line. *)
Definition systemPrompt (topic levelInstr styleInstr : string)
           (language : Language) : string :=
  concat nl
    [ "";
      "    You are an expert visual researcher and infographic designer.";
      "    Your goal is to research the topic: " ++ dq ++ topic ++ dq
        ++ " and create a detailed prompt for a professional infographic.";
      "";
      "    **IMPORTANT: Use the Google Search tool to find the most accurate, up-to-date information about this topic.**";
      "";
      "    Context:";
      "    " ++ levelInstr;
      "    " ++ styleInstr;
      "    Language: " ++ language;
      "";
      "    Please provide your response in the following format EXACTLY:";
      "";
      "    FACTS:";
      "    - [Fact 1]";
      "    - [Fact 2]";
      "    - [Fact 3]";
      "";
      "    IMAGE_PROMPT:";
      "    [A highly detailed image generation prompt that must include:";
      "    - Explicit instruction: " ++ dq
        ++ "Create a 16:9 widescreen format infographic" ++ dq;
      "    - Overall composition and layout (horizontal panels, flowcharts, diagrams, etc.)";
      "    - Specific visual elements (icons, charts, illustrations, data visualizations)";
      "    - Color scheme and palette";
      "    - Typography guidance (large, readable text in " ++ language ++ ")";
      "    - Background treatment";
      "    - Any specific design patterns appropriate for the style";
      "    Do not include citations or references in the prompt.]";
      "  " ].

(** ** The four regular-expression literals *)

Definition anyChar (c : ascii) : bool := isWhiteSpace c || negb (isWhiteSpace c).

(** [/FACTS:\s*([\s\S]*?)(?=IMAGE_PROMPT:|$)/i] *)
Definition FACTS_RE : RegExp :=
  mkRegExp
    (Seq (lit "FACTS:")
      (Seq (Star true (Class isWhiteSpace))
        (Seq (Group 1 (Star false (Class anyChar)))
             (LookAhead (Alt (lit "IMAGE_PROMPT:") AssertEnd)))))
    true.

(** [/IMAGE_PROMPT:\s*([\s\S]*?)$/i] *)
Definition IMAGE_PROMPT_RE : RegExp :=
  mkRegExp
    (Seq (lit "IMAGE_PROMPT:")
      (Seq (Star true (Class isWhiteSpace))
        (Seq (Group 1 (Star false (Class anyChar)))
             AssertEnd)))
    true.

(** [/^-\s*/] *)
Definition BULLET_RE : RegExp :=
  mkRegExp
    (Seq AssertStart (Seq (Char "-") (Star true (Class isWhiteSpace))))
    false.

(** [/^data:image\/(png|jpeg|jpg);base64,/] *)
Definition DATA_URI_RE : RegExp :=
  mkRegExp
    (Seq AssertStart
      (Seq (lit "data:image/")
        (Seq (Group 1 (Alt (lit "png") (Alt (lit "jpeg") (lit "jpg"))))
             (lit ";base64,"))))
    false.

(** ** Response parsing of [researchTopicForPrompt] *)

Record SearchResultItem : Type := mkItem {
  title : string;
  url : string
}.

Record ResearchResult : Type := mkResearch {
  imagePrompt : string;
  facts : list string;
  searchResults : list SearchResultItem
}.

(** [m[1].trim()]: a method call on [undefined] throws. *)
Definition trimGroup1 (m : MatchResult) : Outcome string :=
  match group 1 m with
  | Some s => Ok (trim s)
  | None => Throw (TypeError "Cannot read properties of undefined (reading 'trim')")
  end.

(** [response.text || ""] *)
Definition responseText (response : GenerateContentResponse) : string :=
  match text response with
  | Some s => s
  | None => ""
  end.

(** [factsMatch ? factsMatch[1].trim() : ""] *)
Definition factsRaw (txt : string) : Outcome string :=
  match exec FACTS_RE txt with
  | Some factsMatch => trimGroup1 factsMatch
  | None => Ok ""
  end.

(** [f => f.replace(/^-\s*/, '').trim()] *)
Definition cleanFact (f : string) : string :=
  trim (replaceWithEmpty BULLET_RE f).

Definition parseFacts (txt : string) : Outcome (list string) :=
  raw <- factsRaw txt ;;
  Ok (firstn 5
        (filter (fun f => Nat.ltb 0 (length f))
           (map cleanFact (split LF raw)))).

Definition fallbackPrompt (topic levelInstr styleInstr : string) : string :=
  "Create a detailed 16:9 widescreen format infographic about " ++ topic
    ++ ". " ++ levelInstr ++ " " ++ styleInstr.

(** [promptMatch ? promptMatch[1].trim() : `Create a detailed ...`] *)
Definition extractedPrompt (txt topic levelInstr styleInstr : string)
  : Outcome string :=
  match exec IMAGE_PROMPT_RE txt with
  | Some promptMatch => trimGroup1 promptMatch
  | None => Ok (fallbackPrompt topic levelInstr styleInstr)
  end.

Definition ASPECT_PREFIX : string :=
  "Create a 16:9 widescreen format infographic. ".

Definition QUALITY_SUFFIX : string :=
  " High resolution, professional quality, crisp and clear details, well-balanced composition, maximum visual clarity.".

(** The [if] that ensures the aspect ratio is specified. *)
Definition ensureAspect (p : string) : string :=
  if negb (includes "16:9" (toLowerCase p))
     && negb (includes "widescreen" (toLowerCase p))
  then ASPECT_PREFIX ++ p
  else p.

Definition finishPrompt (p : string) : string :=
  ensureAspect p ++ QUALITY_SUFFIX.

(** [response.candidates?.[0]?.groundingMetadata?.groundingChunks] *)
Definition chunksOf (response : GenerateContentResponse)
  : option (list GroundingChunk) :=
  match candidates response with
  | Some (c :: _) =>
      match groundingMetadata c with
      | Some g => groundingChunks g
      | None => None
      end
  | _ => None
  end.

Definition chunkUri (chunk : GroundingChunk) : option string :=
  match web chunk with Some w => uri w | None => None end.

Definition chunkTitle (chunk : GroundingChunk) : option string :=
  match web chunk with Some w => webTitle w | None => None end.

(** The body of the [forEach]: a push when both fields are truthy. *)
Definition pushChunk (acc : list SearchResultItem) (chunk : GroundingChunk)
  : list SearchResultItem :=
  match chunkUri chunk, chunkTitle chunk with
  | Some u, Some t =>
      if truthy (Some u) && truthy (Some t) then (acc ++ [mkItem t u])%list else acc
  | _, _ => acc
  end.

Definition collectResults (chunks : option (list GroundingChunk))
  : list SearchResultItem :=
  match chunks with
  | Some cs => fold_left pushChunk cs []
  | None => []
  end.

(** A JavaScript [Map] with string keys: the entries in insertion order.
    [set] on a key already present replaces the value where the key
    stands; a new key goes to the end. *)
Fixpoint mapSet {V : Type} (k : string) (v : V) (m : list (string * V))
  : list (string * V) :=
  match m with
  | [] => [(k, v)]
  | (k', v') :: t =>
      if k' =? k then (k', v) :: t else (k', v') :: mapSet k v t
  end.

(** [new Map(entries)] *)
Definition newMap {V : Type} (entries : list (string * V)) : list (string * V) :=
  fold_left (fun m e => mapSet (fst e) (snd e) m) entries [].

(** [Array.from(new Map(results.map(item => [item.url, item])).values())] *)
Definition uniqueResults (results : list SearchResultItem) : list SearchResultItem :=
  map snd (newMap (map (fun item => (url item, item)) results)).

(** Everything [researchTopicForPrompt] does after the awaited call. *)
Definition parseResearch (topic levelInstr styleInstr : string)
           (response : GenerateContentResponse) : Outcome ResearchResult :=
  let txt := responseText response in
  fs <- parseFacts txt ;;
  p <- extractedPrompt txt topic levelInstr styleInstr ;;
  Ok (mkResearch (finishPrompt p) fs
        (uniqueResults (collectResults (chunksOf response)))).

(** ** Image requests and the scan of the response *)

(** The sampling parameters as written: 0.4, 32 and 0.95. *)
Definition samplingConfig : GenerateContentConfig :=
  mkConfig None (Some (4 # 10)%Q) (Some (32 # 1)%Q) (Some (95 # 100)%Q).

Definition enhancedPrompt (prompt : string) : string :=
  concat nl
    [ prompt;
      "";
      "CRITICAL REQUIREMENTS:";
      "- Format: 16:9 aspect ratio (widescreen/landscape orientation)";
      "- Resolution: High-definition, print-quality";
      "- Text: All text must be large, legible, and perfectly readable";
      "- Layout: Professional infographic design with clear visual hierarchy";
      "- Graphics: Sharp, detailed, high-contrast elements";
      "- Background: Clean and complementary to the content";
      "- Overall: Publication-ready quality suitable for educational or professional use" ].

Definition fixPrompt (correctionPrompt : string) : string :=
  concat nl
    [ "";
      "    Edit this image. ";
      "    Goal: Simplify and Fix.";
      "    Instruction: " ++ correctionPrompt ++ ".";
      "    Ensure the design is clean and any text is large and legible.";
      "  " ].

Definition enhancedInstruction (editInstruction : string) : string :=
  concat nl
    [ editInstruction;
      "";
      "MAINTAIN QUALITY STANDARDS:";
      "- Keep 16:9 aspect ratio";
      "- Maintain high resolution and clarity";
      "- Ensure all text remains large and readable";
      "- Keep professional infographic quality";
      "- Preserve visual hierarchy and composition balance" ].

(** [currentImageBase64.replace(/^data:image\/(png|jpeg|jpg);base64,/, '')] *)
Definition cleanBase64 (currentImageBase64 : string) : string :=
  replaceWithEmpty DATA_URI_RE currentImageBase64.

Definition textPart (s : string) : Part := mkPart (Some s) None.

Definition inlinePart (mime payload : string) : Part :=
  mkPart None (Some (mkBlob (Some mime) (Some payload))).

Definition researchRequest (topic : string) (level : ComplexityLevel)
           (style : VisualStyle) (language : Language)
  : GenerateContentParameters :=
  mkParams TEXT_MODEL
    (ContentString
       (systemPrompt topic (getLevelInstruction level)
          (getStyleInstruction style) language))
    (Some (mkConfig (Some [GoogleSearch]) None None None)).

Definition generateRequest (prompt : string) : GenerateContentParameters :=
  mkParams IMAGE_MODEL
    (ContentParts [textPart (enhancedPrompt prompt)])
    (Some samplingConfig).

Definition fixRequest (currentImageBase64 correctionPrompt : string)
  : GenerateContentParameters :=
  mkParams EDIT_MODEL
    (ContentParts
       [ inlinePart "image/jpeg" (cleanBase64 currentImageBase64);
         textPart (fixPrompt correctionPrompt) ])
    None.

Definition editRequest (currentImageBase64 editInstruction : string)
  : GenerateContentParameters :=
  mkParams EDIT_MODEL
    (ContentParts
       [ inlinePart "image/jpeg" (cleanBase64 currentImageBase64);
         textPart (enhancedInstruction editInstruction) ])
    (Some samplingConfig).

(** [response.candidates?.[0]?.content?.parts || []] *)
Definition responseParts (response : GenerateContentResponse) : list Part :=
  match candidates response with
  | Some (c :: _) =>
      match content c with
      | Some ct =>
          match parts ct with
          | Some ps => ps
          | None => []
          end
      | None => []
      end
  | _ => []
  end.

(** [part.inlineData && part.inlineData.data] as a test. *)
Definition hasInlineData (part : Part) : bool :=
  match inlineData part with
  | Some b => truthy (data b)
  | None => false
  end.

(** The [for ... of] loop: the first part that passes returns. *)
Fixpoint scanParts (ps : list Part) : option string :=
  match ps with
  | [] => None
  | part :: more =>
      match inlineData part with
      | Some b =>
          match data b with
          | Some (String _ _ as d) => Some ("data:image/png;base64," ++ d)
          | _ => scanParts more
          end
      | None => scanParts more
      end
  end.

Definition imageOrThrow (message : string) (response : GenerateContentResponse)
  : Outcome string :=
  match scanParts (responseParts response) with
  | Some dataUri => Ok dataUri
  | None => Throw (Error message)
  end.

Record Verification : Type := mkVerification {
  isAccurate : bool;
  critique : string
}.

(** The body ignores its five parameters. *)
Definition verifyInfographicAccuracy (imageBase64 topic : string)
           (level : ComplexityLevel) (style : VisualStyle)
           (language : Language) : Async Verification :=
  Return (mkVerification true "Verification bypassed.").

(** ** The exported operations *)

Definition researchTopicForPrompt (topic : string) (level : ComplexityLevel)
           (style : VisualStyle) (language : Language)
  : Async ResearchResult :=
  Await (researchRequest topic level style language)
    (fun response =>
       settle (parseResearch topic (getLevelInstruction level)
                             (getStyleInstruction style) response)).

Definition generateInfographicImage (prompt : string) : Async string :=
  Await (generateRequest prompt)
    (fun response => settle (imageOrThrow "Failed to generate image" response)).

Definition fixInfographicImage (currentImageBase64 correctionPrompt : string)
  : Async string :=
  Await (fixRequest currentImageBase64 correctionPrompt)
    (fun response => settle (imageOrThrow "Failed to fix image" response)).

Definition editInfographicImage (currentImageBase64 editInstruction : string)
  : Async string :=
  Await (editRequest currentImageBase64 editInstruction)
    (fun response => settle (imageOrThrow "Failed to edit image" response)).

End GeminiService.

(* ================================================================== *)
(** * What the patterns compute, said without the matcher *)
(* ================================================================== *)

(** The functions below describe the outcome of each pattern directly on
    the input.  They are compared with the matcher in [RegexFacts] and
    [PatternFacts]; the operations above never use them. *)

Module Closed.
Import JsString Regex GenAI GeminiService.

(** [p] is a prefix of [s], characters compared by [cmp pattern input]. *)
Fixpoint prefixBy (cmp : ascii -> ascii -> bool) (p s : string) : bool :=
  match p, s with
  | EmptyString, _ => true
  | String a p', String b s' => cmp a b && prefixBy cmp p' s'
  | String _ _, EmptyString => false
  end.

(** Greedy and lazy repetition of a character class in front of a
    continuation, by recursion on the input. *)
Fixpoint greedyFrom (p : ascii -> bool) (k : Continuation) (e : nat)
         (s : string) (cs : list (nat * option string)) : option MatchState :=
  match s with
  | String a t =>
      if p a then
        match greedyFrom p k (S e) t cs with
        | Some z => Some z
        | None => k (mkState e s cs)
        end
      else k (mkState e s cs)
  | EmptyString => k (mkState e s cs)
  end.

Fixpoint lazyFrom (p : ascii -> bool) (k : Continuation) (e : nat)
         (s : string) (cs : list (nat * option string)) : option MatchState :=
  match k (mkState e s cs) with
  | Some z => Some z
  | None =>
      match s with
      | String a t => if p a then lazyFrom p k (S e) t cs else None
      | EmptyString => None
      end
  end.

(** The length of the leading run of white space. *)
Fixpoint spaceRun (s : string) : nat :=
  match s with
  | String c t => if isWhiteSpace c then S (spaceRun t) else 0
  | EmptyString => 0
  end.

(** The text that follows the first occurrence of the header [h] in [s],
    letters compared as the [i] flag compares them. *)
Fixpoint afterHeader (h s : string) : option string :=
  if prefixBy (charMatches true) h s then Some (drop (length h) s)
  else match s with
       | EmptyString => None
       | String _ t => afterHeader h t
       end.

Definition hasHeader (h s : string) : bool :=
  match afterHeader h s with
  | Some _ => true
  | None => false
  end.

(** The shortest prefix of [s] after which [stop] holds of what is left;
    all of [s] when it holds nowhere before the end. *)
Fixpoint untilStop (stop : string -> bool) (s : string) : string :=
  if stop s then EmptyString
  else match s with
       | EmptyString => EmptyString
       | String c t => String c (untilStop stop t)
       end.

Definition atEnd (s : string) : bool :=
  match s with
  | EmptyString => true
  | String _ _ => false
  end.

Definition atPromptHeader (s : string) : bool :=
  prefixBy (charMatches true) "IMAGE_PROMPT:" s.

(** What follows the header in [FACTS_RE] and in [IMAGE_PROMPT_RE]. *)
Definition factsTail : regex :=
  Seq (Star true (Class isWhiteSpace))
    (Seq (Group 1 (Star false (Class anyChar)))
         (LookAhead (Alt (lit "IMAGE_PROMPT:") AssertEnd))).

Definition promptTail : regex :=
  Seq (Star true (Class isWhiteSpace))
    (Seq (Group 1 (Star false (Class anyChar))) AssertEnd).

(** Capture 1 of [FACTS_RE]: from the first non-blank character after the
    first FACTS: header up to the next IMAGE_PROMPT: header or the end. *)
Definition factsSection (txt : string) : option string :=
  match afterHeader "FACTS:" txt with
  | Some after => Some (untilStop atPromptHeader (trimStart after))
  | None => None
  end.

(** Capture 1 of [IMAGE_PROMPT_RE]: from the first non-blank character
    after the first IMAGE_PROMPT: header to the end. *)
Definition promptSection (txt : string) : option string :=
  match afterHeader "IMAGE_PROMPT:" txt with
  | Some after => Some (trimStart after)
  | None => None
  end.

(** [f.replace(/^-\s*/, '')]: a leading hyphen goes, with the white space
    after it. *)
Definition stripBullet (f : string) : string :=
  match f with
  | String c t => if Ascii.eqb c "-" then trimStart t else f
  | EmptyString => f
  end.

(** [s.replace(/^data:image\/(png|jpeg|jpg);base64,/, '')] *)
Definition stripDataUri (s : string) : string :=
  if prefix "data:image/png;base64," s then drop 22 s
  else if prefix "data:image/jpeg;base64," s then drop 23 s
  else if prefix "data:image/jpg;base64," s then drop 22 s
  else s.

(** The lines of the FACTS section as [parseFacts] splits them. *)
Definition factLines (txt : string) : list string :=
  split LF (trim (match factsSection txt with
                  | Some sec => sec
                  | None => EmptyString
                  end)).

Definition nonEmpty (f : string) : bool := Nat.ltb 0 (length f).

(** The prompt before post-processing: the trimmed section, or the
    fallback. *)
Definition basePrompt (txt topic levelInstr styleInstr : string) : string :=
  match promptSection txt with
  | Some sec => trim sec
  | None => fallbackPrompt topic levelInstr styleInstr
  end.

(** The citation a chunk gives, when its uri and title are both present
    and non-empty. *)
Definition citationOf (chunk : GroundingChunk) : list SearchResultItem :=
  match chunkUri chunk, chunkTitle chunk with
  | Some (String a u), Some (String b t) => [mkItem (String b t) (String a u)]
  | _, _ => []
  end.

Definition citations (chunks : option (list GroundingChunk))
  : list SearchResultItem :=
  match chunks with
  | Some cs => flat_map citationOf cs
  | None => []
  end.

Definition member (k : string) (ks : list string) : bool :=
  existsb (String.eqb k) ks.

(** [results.map(item => [item.url, item])] *)
Definition entriesOf (items : list SearchResultItem)
  : list (string * SearchResultItem) :=
  map (fun item => (url item, item)) items.

(** The distinct elements of a list, each where it first occurs. *)
Fixpoint firstOccurrences (l : list string) : list string :=
  match l with
  | [] => []
  | x :: l' => x :: filter (fun y => negb (y =? x)) (firstOccurrences l')
  end.

(** The title of the first item with a given url. *)
Definition firstTitle (u : string) (items : list SearchResultItem) : option string :=
  option_map title (find (fun it => url it =? u) items).

(** The number of positions of [s] at which [needle] starts. *)
Fixpoint occurrences (needle s : string) : nat :=
  (if prefix needle s then 1 else 0) +
  match s with
  | EmptyString => 0
  | String _ t => occurrences needle t
  end.

Definition endsWith (suffix s : string) : bool :=
  (drop (length s - length suffix) s =? suffix).

Definition QUALITY_SENTENCE : string :=
  "High resolution, professional quality, crisp and clear details, well-balanced composition, maximum visual clarity.".

Definition ASPECT_SENTENCE : string :=
  "Create a 16:9 widescreen format infographic.".

(** The cleaning of one line read to the letter of the specification: the
    two characters hyphen, space go when the line starts with them. *)
Definition stripDashSpace (f : string) : string :=
  if prefix "- " f then drop 2 f else f.

Definition factsAsWorded (lines : list string) : list string :=
  firstn 5 (filter nonEmpty (map (fun l => trim (stripDashSpace l)) lines)).

(** The base64 text a part carries inline; empty when it carries none. *)
Definition payload (part : Part) : string :=
  match inlineData part with
  | Some b => match data b with Some d => d | None => EmptyString end
  | None => EmptyString
  end.

(** What the scan of the parts makes of a response: the given error when
    no part carries inline data, and otherwise the data of the first part
    that does, as a PNG data URI. *)
Definition scansTo (ps : list Part) (message : string) (result : Outcome string)
  : Prop :=
  (result = Throw (Error message)
   <-> forall part, In part ps -> hasInlineData part = false)
  /\ (forall before part after,
         ps = (before ++ part :: after)%list ->
         (forall q, In q before -> hasInlineData q = false) ->
         hasInlineData part = true ->
         result = Ok ("data:image/png;base64," ++ payload part)).

(** The inline blobs a request carries. *)
Definition inlineBlobs (request : GenerateContentParameters) : list Blob :=
  match contents request with
  | ContentParts ps =>
      flat_map (fun part => match inlineData part with
                            | Some b => [b]
                            | None => []
                            end) ps
  | ContentString _ => []
  end.

(** The cleaning of one line as the code does it. *)
Definition factsOfLines (lines : list string) : list string :=
  firstn 5 (filter nonEmpty (map (fun l => trim (stripBullet l)) lines)).

End Closed.

(* ================================================================== *)
(** * Sample providers and responses *)
(* ================================================================== *)

Module Samples.
Import JsString GenAI GeminiService.

(** A provider that answers every request with the same response. *)
Definition answering (response : GenerateContentResponse) : Provider :=
  fun _ => Ok response.

Definition webChunk (u t : string) : GroundingChunk :=
  mkChunk (Some (mkWeb (Some u) (Some t))).

(** A text response with grounding chunks. *)
Definition grounded (txt : string) (chunks : list GroundingChunk)
  : GenerateContentResponse :=
  mkResponse (Some txt)
    (Some [mkCandidate (Some (mkContent (Some [textPart txt])))
                       (Some (mkGrounding (Some chunks)))]).

Definition textOnly (txt : string) : GenerateContentResponse :=
  mkResponse (Some txt)
    (Some [mkCandidate (Some (mkContent (Some [textPart txt]))) None]).

(** A response whose first candidate has the given parts. *)
Definition withParts (ps : list Part) : GenerateContentResponse :=
  mkResponse None (Some [mkCandidate (Some (mkContent (Some ps))) None]).

Definition threeChunks : list GroundingChunk :=
  [webChunk "u1" "T1"; webChunk "u1" "T2"; webChunk "u2" "T3"].

Definition twoFacts : string :=
  "FACTS:" ++ nl ++ "- A" ++ nl ++ "- B" ++ nl ++ "IMAGE_PROMPT:" ++ nl ++ "Foo".

Definition eightFacts : string :=
  concat nl
    [ "FACTS:"; "- one"; "- two"; "- three"; "- four"; "- five"; "- six";
      "- seven"; "- eight"; "IMAGE_PROMPT:"; "A widescreen chart" ].

Definition tightBullet : string :=
  "FACTS:" ++ nl ++ "-A" ++ nl ++ "- B".

Definition echoedQuality : string :=
  "IMAGE_PROMPT: High resolution, professional quality, crisp and clear details, well-balanced composition, maximum visual clarity.".

End Samples.

(* ================================================================== *)
(** * Shapes of inputs and responses *)
(* ================================================================== *)

Module Shapes.
Import JsString Regex GenAI GeminiService Closed.

(** The values the two [switch] statements have a [case] for. *)
Definition recognisedLevels : list string :=
  ["Elementary"; "High School"; "College"; "Expert"].

Definition recognisedStyles : list string :=
  ["Minimalist"; "Realistic"; "Cartoon"; "Vintage"; "Futuristic"; "3D Render";
   "Sketch"].

(** The chunks of a response, none when the path to them is broken. *)
Definition chunkList (response : GenerateContentResponse) : list GroundingChunk :=
  match chunksOf response with
  | Some cs => cs
  | None => []
  end.

(** A chunk that the [forEach] pushes. *)
Definition citable (chunk : GroundingChunk) : bool :=
  truthy (chunkUri chunk) && truthy (chunkTitle chunk).

(** The text of the text parts a request carries. *)
Definition textsOf (request : GenerateContentParameters) : list string :=
  match contents request with
  | ContentParts ps =>
      flat_map (fun part => match partText part with
                            | Some t => [t]
                            | None => []
                            end) ps
  | ContentString t => [t]
  end.

(** The character [c] occurs in [s]. *)
Fixpoint hasChar (c : ascii) (s : string) : bool :=
  match s with
  | EmptyString => false
  | String d t => Ascii.eqb d c || hasChar c t
  end.

(** No character of the pattern text [h] matches [c] under the [i] flag. *)
Fixpoint neverMatches (h : string) (c : ascii) : bool :=
  match h with
  | EmptyString => true
  | String a h' => negb (charMatches true a c) && neverMatches h' c
  end.

(** A response text in the format the system prompt asks for: the FACTS:
    header, one line per fact behind a hyphen and a space, an empty line,
    the IMAGE_PROMPT: header, and the prompt on the lines after it. *)
Fixpoint bullets (fs : list string) : string :=
  match fs with
  | [] => EmptyString
  | f :: fs' => "- " ++ f ++ nl ++ bullets fs'
  end.

Definition formatted (fs : list string) (p : string) : string :=
  "FACTS:" ++ nl ++ bullets fs ++ nl ++ "IMAGE_PROMPT:" ++ nl ++ p.

(** A fact that the format carries unchanged: not empty, no white space at
    its ends, on one line, and without the IMAGE_PROMPT: header in it. *)
Definition plainFact (f : string) : bool :=
  nonEmpty f && (trim f =? f) && negb (hasChar LF f)
  && negb (hasHeader "IMAGE_PROMPT:" f).

(** A provider that rejects every request. *)
Definition failing (e : JsError) : Provider := fun _ => Throw e.

End Shapes.

(* ================================================================== *)
(** * Facts about strings *)
(* ================================================================== *)

Module StringFacts.
Import JsString Closed.

Lemma length_append (a b : string) :
  length (a ++ b) = length a + length b.
Proof. induction a as [|c a IH]; simpl; [reflexivity | now rewrite IH]. Qed.

Lemma append_nil_r (a : string) : a ++ "" = a.
Proof. induction a as [|c a IH]; simpl; [reflexivity | now rewrite IH]. Qed.

Lemma append_assoc (a b c : string) : (a ++ b) ++ c = a ++ (b ++ c).
Proof. induction a as [|x a IH]; simpl; [reflexivity | now rewrite IH]. Qed.

Lemma drop_append (a b : string) : drop (length a) (a ++ b) = b.
Proof. induction a as [|c a IH]; simpl; [now destruct b | exact IH]. Qed.

Lemma drop_0 (s : string) : drop 0 s = s.
Proof. now destruct s. Qed.

Lemma trimStart_spaceRun (s : string) : trimStart s = drop (spaceRun s) s.
Proof.
  induction s as [|c s IH]; simpl; [reflexivity|].
  destruct (isWhiteSpace c); [exact IH | reflexivity].
Qed.

Lemma prefixBy_eqb (p s : string) : prefixBy Ascii.eqb p s = prefix p s.
Proof.
  revert s; induction p as [|a p IH]; intros [|b s]; simpl; try reflexivity.
  destruct (Ascii.eqb_spec a b) as [->|Hne].
  - destruct (ascii_dec b b) as [_|C]; [apply IH | now elim C].
  - destruct (ascii_dec a b) as [E|_]; [now elim Hne | reflexivity].
Qed.

Lemma prefix_append (p s : string) : prefix p (p ++ s) = true.
Proof.
  induction p as [|a p IH]; simpl; [now destruct s|].
  destruct (ascii_dec a a) as [_|C]; [exact IH | now elim C].
Qed.

Lemma prefix_true (p s : string) :
  prefix p s = true -> s = p ++ drop (length p) s.
Proof.
  revert s; induction p as [|a p IH]; intros [|b s]; simpl; intro H;
    try reflexivity; try discriminate.
  destruct (ascii_dec a b) as [->|_]; [|discriminate].
  now rewrite <- (IH s H).
Qed.

Lemma prefix_nil (s : string) : prefix "" s = true.
Proof. now destruct s. Qed.

Lemma prefix_app (a b s : string) :
  prefix (a ++ b) s = prefix a s && prefix b (drop (length a) s).
Proof.
  revert s; induction a as [|x a IH]; intros s.
  - cbn [append length drop]. now rewrite prefix_nil.
  - destruct s as [|y s]; [reflexivity|].
    cbn [append length drop prefix]. destruct (ascii_dec x y); [apply IH | reflexivity].
Qed.

Lemma drop_drop (a b : nat) (s : string) : drop a (drop b s) = drop (b + a) s.
Proof.
  revert s; induction b as [|b IH]; intros s.
  - reflexivity.
  - destruct s as [|c s]; cbn [drop Nat.add]; [now destruct a | apply IH].
Qed.

Lemma take_untilStop (stop : string -> bool) (s : string) :
  take (length (untilStop stop s)) s = untilStop stop s.
Proof.
  induction s as [|c s IH]; cbn [untilStop].
  - now destruct (stop "").
  - destruct (stop (String c s)); [reflexivity|].
    cbn [length take]. now rewrite IH.
Qed.

Lemma untilStop_never (s : string) : untilStop (fun _ => false) s = s.
Proof. induction s as [|c s IH]; cbn [untilStop]; [reflexivity | now rewrite IH]. Qed.

Lemma anyChar_true (c : ascii) : GeminiService.anyChar c = true.
Proof. unfold GeminiService.anyChar. apply orb_negb_r. Qed.

Lemma take_length (s : string) : take (length s) s = s.
Proof. induction s as [|c s IH]; cbn [length take]; [reflexivity | now rewrite IH]. Qed.

Lemma includes_prefix (t s : string) : prefix t s = true -> includes t s = true.
Proof. intro H. destruct s; cbn [includes]; rewrite H; reflexivity. Qed.

Lemma includes_append (a t b : string) : includes t (a ++ t ++ b) = true.
Proof.
  induction a as [|c a IH]; simpl.
  - apply includes_prefix, prefix_append.
  - rewrite IH. apply orb_true_r.
Qed.

(** [includes] is occurrence as a substring. *)
Lemma includes_iff (n s : string) :
  includes n s = true <-> exists a b, s = a ++ n ++ b.
Proof.
  split.
  - induction s as [|c s IH]; cbn [includes]; intros H.
    + rewrite orb_false_r in H. apply prefix_true in H.
      exists "", (drop (length n) ""). exact H.
    + apply orb_true_iff in H. destruct H as [H|H].
      * apply prefix_true in H. exists "", (drop (length n) (String c s)). exact H.
      * destruct (IH H) as (a & b & ->). now exists (String c a), b.
  - intros (a & b & ->). apply includes_append.
Qed.

Lemma mapChars_append (f : ascii -> ascii) (a b : string) :
  mapChars f (a ++ b) = mapChars f a ++ mapChars f b.
Proof. induction a as [|c a IH]; cbn [append mapChars]; [reflexivity | now rewrite IH]. Qed.

Lemma mapChars_split (f : ascii -> ascii) (x y : string) :
  forall s, mapChars f s = x ++ y ->
            exists a b, s = a ++ b /\ mapChars f a = x /\ mapChars f b = y.
Proof.
  induction x as [|c x IH]; intros s H.
  - now exists "", s.
  - destruct s as [|d s]; [discriminate|]. cbn [mapChars append] in H.
    injection H as Hc H. destruct (IH s H) as (a & b & -> & Ha & Hb).
    exists (String d a), b. cbn [mapChars append]. now rewrite Hc, Ha.
Qed.

(** The test of [ensureAspect], [p.toLowerCase().includes(n)], holds
    exactly when some stretch of [p] is [n] once put in lower case. *)
Lemma includes_lower_iff (n p : string) :
  includes n (toLowerCase p) = true
  <-> exists a w b, p = a ++ w ++ b /\ toLowerCase w = n.
Proof.
  unfold toLowerCase. rewrite includes_iff. split.
  - intros (x & y & H). apply mapChars_split in H.
    destruct H as (a & wb & -> & _ & H). apply mapChars_split in H.
    destruct H as (w & b & -> & Hw & _). now exists a, w, b.
  - intros (a & w & b & -> & <-).
    exists (mapChars lowerChar a), (mapChars lowerChar b).
    now rewrite !mapChars_append.
Qed.

End StringFacts.

(* ================================================================== *)
(** * Facts about the matcher *)
(* ================================================================== *)

Module RegexFacts.
Import JsString Regex Closed StringFacts.

Lemma filter_all {A : Type} (l : list A) : filter (fun _ => true) l = l.
Proof. induction l as [|a l IH]; simpl; [reflexivity | now rewrite IH]. Qed.

Lemma clearCaptures_nil (x : MatchState) : clearCaptures [] x = x.
Proof. destruct x as [e s cs]. unfold clearCaptures; simpl. now rewrite filter_all. Qed.

(** The equations of [matcher], one per construct. *)
Section Equations.
Variables (ic : bool) (k : Continuation) (x : MatchState).

Lemma matcher_seq r1 r2 :
  matcher ic (Seq r1 r2) k x = matcher ic r1 (matcher ic r2 k) x.
Proof. reflexivity. Qed.

Lemma matcher_alt r1 r2 :
  matcher ic (Alt r1 r2) k x =
  match matcher ic r1 k x with
  | Some z => Some z
  | None => matcher ic r2 k x
  end.
Proof. reflexivity. Qed.

Lemma matcher_char c :
  matcher ic (Char c) k x = step1 (charMatches ic c) k x.
Proof. reflexivity. Qed.

Lemma matcher_group n r :
  matcher ic (Group n r) k x =
  matcher ic r
    (fun y => k (mkState (endIndex y) (rest y)
                   (setCapture n
                      (Some (take (endIndex y - endIndex x) (rest x)))
                      (captures y)))) x.
Proof. reflexivity. Qed.

Lemma matcher_lookahead r :
  matcher ic (LookAhead r) k x =
  match matcher ic r (fun y => Some y) x with
  | Some y => k (mkState (endIndex x) (rest x) (captures y))
  | None => None
  end.
Proof. reflexivity. Qed.

Lemma matcher_start :
  matcher ic AssertStart k x = if Nat.eqb (endIndex x) 0 then k x else None.
Proof. reflexivity. Qed.

Lemma matcher_end :
  matcher ic AssertEnd k x =
  match rest x with
  | EmptyString => k x
  | String _ _ => None
  end.
Proof. reflexivity. Qed.
End Equations.

(** A literal consumes itself or fails. *)
Lemma matcher_lit (ic : bool) (p : string) (k : Continuation) :
  forall e s cs,
    matcher ic (lit p) k (mkState e s cs) =
    if prefixBy (charMatches ic) p s
    then k (mkState (e + length p) (drop (length p) s) cs)
    else None.
Proof.
  induction p as [|a p IH]; intros e s cs; cbn [lit prefixBy length drop].
  - now rewrite Nat.add_0_r.
  - rewrite matcher_seq, matcher_char. unfold step1; cbn [rest endIndex captures].
    destruct s as [|b s]; [reflexivity|].
    destruct (charMatches ic a b); cbn [andb]; [|reflexivity].
    rewrite IH. now rewrite Nat.add_succ_r.
Qed.

Lemma succ_neq (e : nat) : Nat.eqb (S e) e = false.
Proof. apply Nat.eqb_neq. lia. Qed.

(** The greedy star of a class runs as [greedyFrom], whatever the fuel
    above the length of the input. *)
Lemma repeat_greedy_class (p : ascii -> bool) (k : Continuation) :
  forall fuel e s cs,
    length s < fuel ->
    repeatMatcher (step1 p) true [] fuel k (mkState e s cs)
    = greedyFrom p k e s cs.
Proof.
  induction fuel as [|fuel IH]; intros e s cs Hf; [lia|].
  cbn [repeatMatcher]. rewrite clearCaptures_nil. unfold step1 at 1.
  cbn [rest endIndex captures].
  destruct s as [|a t]; [reflexivity|].
  cbn [greedyFrom]. destruct (p a); [|reflexivity].
  rewrite succ_neq. rewrite IH by (simpl in Hf; lia). reflexivity.
Qed.

Lemma repeat_lazy_class (p : ascii -> bool) (k : Continuation) :
  forall fuel e s cs,
    length s < fuel ->
    repeatMatcher (step1 p) false [] fuel k (mkState e s cs)
    = lazyFrom p k e s cs.
Proof.
  induction fuel as [|fuel IH]; intros e s cs Hf; [lia|].
  cbn [repeatMatcher]. rewrite clearCaptures_nil. unfold step1 at 1.
  cbn [rest endIndex captures].
  destruct s as [|a t]; cbn [lazyFrom].
  - now destruct (k _).
  - destruct (k _); [reflexivity|].
    destruct (p a); [|reflexivity].
    rewrite succ_neq. rewrite IH by (simpl in Hf; lia). reflexivity.
Qed.

Lemma matcher_star_class (ic g : bool) (p : ascii -> bool) (k : Continuation)
      (e : nat) (s : string) (cs : list (nat * option string)) :
  matcher ic (Star g (Class p)) k (mkState e s cs)
  = if g then greedyFrom p k e s cs else lazyFrom p k e s cs.
Proof.
  change (matcher ic (Star g (Class p)) k (mkState e s cs))
    with (repeatMatcher (step1 p) g [] (S (length s)) k (mkState e s cs)).
  destruct g.
  - apply repeat_greedy_class. lia.
  - apply repeat_lazy_class. lia.
Qed.

(** When the continuation accepts the state after the whole run of white
    space, the greedy star hands it that state. *)
Lemma greedy_spaces_accept (k : Continuation) (z : MatchState) :
  forall s e cs,
    k (mkState (e + spaceRun s) (trimStart s) cs) = Some z ->
    greedyFrom isWhiteSpace k e s cs = Some z.
Proof.
  induction s as [|a t IH]; intros e cs Hk; simpl in *.
  - now rewrite Nat.add_0_r in Hk.
  - destruct (isWhiteSpace a).
    + rewrite (IH (S e) cs); [reflexivity|].
      now rewrite Nat.add_succ_r in Hk.
    + now rewrite Nat.add_0_r in Hk.
Qed.

End RegexFacts.

(* ================================================================== *)
(** * The four patterns of the file against their closed forms *)
(* ================================================================== *)

Module PatternFacts.
Import JsString Regex GenAI GeminiService Closed StringFacts RegexFacts.

(** ** Patterns anchored with ^ *)

Lemma anchored_later (ic : bool) (r : regex) :
  forall s i, searchFrom (mkRegExp (Seq AssertStart r) ic) (S i) s = None.
Proof.
  induction s as [|c s IH]; intros i; cbn [searchFrom pattern ignoreCaseFlag];
    rewrite matcher_seq, matcher_start; cbn [endIndex Nat.eqb];
    [reflexivity | apply IH].
Qed.

Lemma anchored_exec (ic : bool) (r : regex) (s : string) :
  exec (mkRegExp (Seq AssertStart r) ic) s =
  match matcher ic r (fun y => Some y) (mkState 0 s []) with
  | Some y => Some (mkResult 0 (endIndex y) (captures y))
  | None => None
  end.
Proof.
  unfold exec. destruct s as [|c s]; cbn [searchFrom pattern ignoreCaseFlag];
    rewrite matcher_seq, matcher_start; cbn [endIndex Nat.eqb].
  - now destruct (matcher ic r _ _).
  - destruct (matcher ic r _ _); [reflexivity|].
    apply anchored_later.
Qed.

(** [/^-\s*/] *)
Lemma replace_bullet (f : string) : replaceWithEmpty BULLET_RE f = stripBullet f.
Proof.
  unfold replaceWithEmpty, BULLET_RE. rewrite anchored_exec.
  rewrite matcher_seq, matcher_char. unfold step1. cbn [rest endIndex captures].
  destruct f as [|c t]; [reflexivity|].
  unfold charMatches, stripBullet. rewrite (Ascii.eqb_sym "-" c).
  destruct (Ascii.eqb c "-"); [|reflexivity].
  rewrite matcher_star_class.
  rewrite (@greedy_spaces_accept (fun y => Some y)
             (mkState (1 + spaceRun t) (trimStart t) []) t 1 []) by reflexivity.
  cbn [index lastIndex endIndex take drop Nat.add].
  rewrite trimStart_spaceRun. reflexivity.
Qed.

Lemma charMatches_exact : charMatches false = Ascii.eqb.
Proof. reflexivity. Qed.

(** [/^data:image\/(png|jpeg|jpg);base64,/] *)
Lemma replace_dataUri (s : string) :
  replaceWithEmpty DATA_URI_RE s = stripDataUri s.
Proof.
  unfold replaceWithEmpty, DATA_URI_RE. rewrite anchored_exec.
  rewrite matcher_seq, matcher_lit, charMatches_exact, prefixBy_eqb.
  unfold stripDataUri.
  change "data:image/png;base64," with ("data:image/" ++ "png" ++ ";base64,").
  change "data:image/jpeg;base64," with ("data:image/" ++ "jpeg" ++ ";base64,").
  change "data:image/jpg;base64," with ("data:image/" ++ "jpg" ++ ";base64,").
  rewrite !prefix_app.
  destruct (prefix "data:image/" s); cbn [andb]; [|reflexivity].
  rewrite matcher_seq, matcher_group, !matcher_alt.
  rewrite !matcher_lit, charMatches_exact, !prefixBy_eqb.
  cbn [length Nat.add endIndex rest captures].
  rewrite !drop_drop. cbn [Nat.add].
  destruct (prefix "png" (drop 11 s)); cbn [andb].
  - destruct (prefix ";base64," (drop 14 s)); [reflexivity|].
    destruct (prefix "jpeg" (drop 11 s)); cbn [andb].
    + destruct (prefix ";base64," (drop 15 s)); [reflexivity|].
      destruct (prefix "jpg" (drop 11 s)); reflexivity.
    + destruct (prefix "jpg" (drop 11 s)); reflexivity.
  - destruct (prefix "jpeg" (drop 11 s)); cbn [andb].
    + destruct (prefix ";base64," (drop 15 s)); [reflexivity|].
      destruct (prefix "jpg" (drop 11 s)); cbn [andb]; [|reflexivity].
      destruct (prefix ";base64," (drop 14 s)); reflexivity.
    + destruct (prefix "jpg" (drop 11 s)); cbn [andb]; [|reflexivity].
      destruct (prefix ";base64," (drop 14 s)); reflexivity.
Qed.

(** ** The two header patterns *)

(** The lazy [[\s\S]*?] stops at the first place its continuation
    accepts: where [stop] holds, or at the end. *)
Lemma lazy_until (stop : string -> bool)
      (F : nat -> string -> list (nat * option string) -> MatchState)
      (kk : Continuation) :
  (forall e s cs,
      kk (mkState e s cs) = if stop s || atEnd s then Some (F e s cs) else None) ->
  forall s e cs,
    lazyFrom anyChar kk e s cs =
    Some (F (e + length (untilStop stop s))
            (drop (length (untilStop stop s)) s) cs).
Proof.
  intros Hkk. induction s as [|a t IH]; intros e cs; cbn [lazyFrom untilStop];
    rewrite Hkk.
  - cbn [atEnd]. rewrite orb_true_r.
    destruct (stop ""); cbn [length drop]; now rewrite Nat.add_0_r.
  - cbn [atEnd]. rewrite orb_false_r. destruct (stop (String a t)).
    + cbn [length drop]. now rewrite Nat.add_0_r.
    + rewrite anyChar_true, IH. cbn [length drop]. now rewrite Nat.add_succ_r.
Qed.

Lemma getCapture_set (n : nat) (v : option string) cs :
  getCapture n (setCapture n v cs) = v.
Proof. unfold setCapture; cbn [getCapture]. now rewrite Nat.eqb_refl. Qed.

(** After the header, the rest of [FACTS_RE] always matches, and capture 1
    is the section. *)
Lemma factsTail_matches (e : nat) (s : string) :
  exists y,
    matcher true factsTail (fun y => Some y) (mkState e s []) = Some y /\
    getCapture 1 (captures y) = Some (untilStop atPromptHeader (trimStart s)).
Proof.
  unfold factsTail. rewrite matcher_seq, matcher_star_class.
  eexists; split.
  - apply greedy_spaces_accept.
    rewrite matcher_seq, matcher_group, matcher_star_class.
    cbn [endIndex rest].
    apply (@lazy_until atPromptHeader
             (fun e1 s1 cs1 =>
                mkState e1 s1
                  (setCapture 1
                     (Some (take (e1 - (e + spaceRun s)) (trimStart s))) cs1))).
    intros e1 s1 cs1. cbn [endIndex rest captures].
    rewrite matcher_lookahead, matcher_alt, matcher_lit, matcher_end.
    fold (atPromptHeader s1). cbn [rest endIndex captures].
    destruct (atPromptHeader s1); [reflexivity|].
    destruct s1; reflexivity.
  - cbn [captures]. rewrite getCapture_set.
    replace (e + spaceRun s + length (untilStop atPromptHeader (trimStart s))
             - (e + spaceRun s))
      with (length (untilStop atPromptHeader (trimStart s))) by lia.
    now rewrite take_untilStop.
Qed.

(** After the header, the rest of [IMAGE_PROMPT_RE] always matches, and
    capture 1 is everything from the first non-blank character on. *)
Lemma promptTail_matches (e : nat) (s : string) :
  exists y,
    matcher true promptTail (fun y => Some y) (mkState e s []) = Some y /\
    getCapture 1 (captures y) = Some (trimStart s).
Proof.
  unfold promptTail. rewrite matcher_seq, matcher_star_class.
  eexists; split.
  - apply greedy_spaces_accept.
    rewrite matcher_seq, matcher_group, matcher_star_class.
    cbn [endIndex rest].
    apply (@lazy_until (fun _ => false)
             (fun e1 s1 cs1 =>
                mkState e1 s1
                  (setCapture 1
                     (Some (take (e1 - (e + spaceRun s)) (trimStart s))) cs1))).
    intros e1 s1 cs1. cbn [endIndex rest captures orb].
    rewrite matcher_end. cbn [rest].
    destruct s1; reflexivity.
  - cbn [captures]. rewrite getCapture_set, untilStop_never.
    replace (e + spaceRun s + length (trimStart s) - (e + spaceRun s))
      with (length (trimStart s)) by lia.
    apply f_equal, take_length.
Qed.

(** A pattern that is a header followed by a tail that always matches:
    it matches at the first occurrence of the header. *)
Lemma search_header (h : string) (r : regex) (g : string -> string) :
  (forall e s, exists y,
        matcher true r (fun y => Some y) (mkState e s []) = Some y /\
        getCapture 1 (captures y) = Some (g s)) ->
  forall s i,
    option_map (group 1) (searchFrom (mkRegExp (Seq (lit h) r) true) i s)
    = option_map (fun a => Some (g a)) (afterHeader h s).
Proof.
  intros Htail. induction s as [|c t IH]; intros i;
    cbn [searchFrom afterHeader pattern ignoreCaseFlag];
    rewrite matcher_seq, matcher_lit;
    destruct (prefixBy (charMatches true) h _) eqn:Hp.
  - destruct (Htail (i + length h) (drop (length h) "")) as (y & Hy & Hc).
    rewrite Hy. cbn [option_map]. unfold group; cbn [caps]. now rewrite Hc.
  - reflexivity.
  - destruct (Htail (i + length h) (drop (length h) (String c t))) as (y & Hy & Hc).
    rewrite Hy. cbn [option_map]. unfold group; cbn [caps]. now rewrite Hc.
  - apply IH.
Qed.

Lemma factsRaw_closed (txt : string) :
  factsRaw txt = Ok (trim (match factsSection txt with
                           | Some sec => sec
                           | None => EmptyString
                           end)).
Proof.
  unfold factsRaw, factsSection, exec, trimGroup1.
  pose proof (@search_header "FACTS:" factsTail _ factsTail_matches txt 0) as H.
  change (mkRegExp (Seq (lit "FACTS:") factsTail) true) with FACTS_RE in H.
  destruct (searchFrom FACTS_RE 0 txt) as [m|];
    destruct (afterHeader "FACTS:" txt) as [a|]; cbn [option_map] in H;
    try discriminate; [|reflexivity].
  injection H as H. now rewrite H.
Qed.

Lemma extractedPrompt_closed (txt topic levelInstr styleInstr : string) :
  extractedPrompt txt topic levelInstr styleInstr
  = Ok (basePrompt txt topic levelInstr styleInstr).
Proof.
  unfold extractedPrompt, basePrompt, promptSection, exec, trimGroup1.
  pose proof (@search_header "IMAGE_PROMPT:" promptTail _ promptTail_matches txt 0) as H.
  change (mkRegExp (Seq (lit "IMAGE_PROMPT:") promptTail) true)
    with IMAGE_PROMPT_RE in H.
  destruct (searchFrom IMAGE_PROMPT_RE 0 txt) as [m|];
    destruct (afterHeader "IMAGE_PROMPT:" txt) as [a|]; cbn [option_map] in H;
    try discriminate; [|reflexivity].
  injection H as H. now rewrite H.
Qed.

End PatternFacts.

(* ================================================================== *)
(** * The Map collapse of the search results *)
(* ================================================================== *)

Module DedupFacts.
Import JsString GenAI GeminiService Closed.

Lemma filter_filter {A : Type} (f g : A -> bool) (l : list A) :
  filter f (filter g l) = filter (fun x => g x && f x) l.
Proof.
  induction l as [|a l IH]; cbn [filter]; [reflexivity|].
  destruct (g a); cbn [filter andb]; [destruct (f a)|]; now rewrite IH.
Qed.

Lemma filter_true {A : Type} (f : A -> bool) (l : list A) :
  (forall x, In x l -> f x = true) -> filter f l = l.
Proof.
  induction l as [|a l IH]; cbn [filter]; intros H; [reflexivity|].
  rewrite (H a) by now left. f_equal. apply IH. intros x Hx. apply H. now right.
Qed.

(** ** [firstOccurrences] removes repetitions and nothing else *)

Lemma firstOccurrences_In (l : list string) (u : string) :
  In u (firstOccurrences l) <-> In u l.
Proof.
  induction l as [|x l IH]; cbn [firstOccurrences]; [tauto|].
  split.
  - intros [->|H]; [now left|].
    apply filter_In in H. right. now apply IH.
  - intros [->|H]; [now left|].
    destruct (string_dec u x) as [->|Hne]; [now left|].
    right. apply filter_In. split; [now apply IH|].
    apply negb_true_iff. now apply String.eqb_neq.
Qed.

Lemma NoDup_filter {A : Type} (f : A -> bool) (l : list A) :
  NoDup l -> NoDup (filter f l).
Proof.
  induction 1 as [|a l Hn Hd IH]; cbn [filter]; [constructor|].
  destruct (f a); [|exact IH].
  constructor; [|exact IH]. intro H. apply filter_In in H. now apply Hn.
Qed.

Lemma firstOccurrences_NoDup (l : list string) : NoDup (firstOccurrences l).
Proof.
  induction l as [|x l IH]; cbn [firstOccurrences]; constructor.
  - intro H. apply filter_In in H. destruct H as [_ H].
    now rewrite String.eqb_refl in H.
  - now apply NoDup_filter.
Qed.

(** ** [mapSet] and [newMap] *)

Lemma member_In (k : string) (ks : list string) : member k ks = true <-> In k ks.
Proof.
  unfold member. rewrite existsb_exists. split.
  - intros (x & Hx & E). apply String.eqb_eq in E. now subst.
  - intros H. exists k. split; [exact H | apply String.eqb_refl].
Qed.

Lemma member_app (k : string) (a b : list string) :
  member k (a ++ b) = member k a || member k b.
Proof. apply existsb_app. Qed.

Section MapSet.
Variable V : Type.
Implicit Types (m es : list (string * V)).

Lemma mapSet_keys_in k v m :
  In k (map fst m) -> map fst (mapSet k v m) = map fst m.
Proof.
  induction m as [|[k' v'] m IH]; cbn [map fst mapSet]; intros Hin.
  - destruct Hin.
  - destruct (String.eqb_spec k' k) as [->|Hne]; [reflexivity|].
    cbn [map fst]. f_equal. apply IH.
    destruct Hin as [E|Hin]; [now elim Hne | exact Hin].
Qed.

Lemma mapSet_keys_notin k v m :
  ~ In k (map fst m) -> map fst (mapSet k v m) = (map fst m ++ [k])%list.
Proof.
  induction m as [|[k' v'] m IH]; cbn [map fst mapSet]; intros Hnin.
  - reflexivity.
  - destruct (String.eqb_spec k' k) as [->|Hne].
    + elim Hnin. now left.
    + cbn [map fst app]. f_equal. apply IH. intro Hin. apply Hnin. now right.
Qed.

Lemma mapSet_NoDup k v m :
  NoDup (map fst m) -> NoDup (map fst (mapSet k v m)).
Proof.
  intros Hnd. destruct (in_dec string_dec k (map fst m)) as [Hin|Hnin].
  - now rewrite mapSet_keys_in.
  - rewrite mapSet_keys_notin by exact Hnin.
    apply NoDup_app; [exact Hnd | constructor; [intros [] | constructor] |].
    intros x Hx [<-|[]]. now apply Hnin.
Qed.

(** With distinct keys, an entry of the map after [set] is the one just
    set, or an older one under another key. *)
Lemma mapSet_in k0 v0 m k v :
  NoDup (map fst m) ->
  In (k, v) (mapSet k0 v0 m) ->
  (k = k0 /\ v = v0) \/ (k <> k0 /\ In (k, v) m).
Proof.
  induction m as [|[k' v'] m IH]; cbn [mapSet map fst]; intros Hnd Hin.
  - destruct Hin as [E|[]]. injection E as <- <-. now left.
  - inversion Hnd as [|? ? Hk' Hnd']; subst.
    destruct (String.eqb_spec k' k0) as [->|Hne].
    + destruct Hin as [E|Hin].
      * injection E as <- <-. now left.
      * right. split; [|now right].
        intros ->. apply Hk'. now apply (in_map fst) in Hin.
    + destruct Hin as [E|Hin].
      * injection E as <- <-. right. split; [exact Hne | now left].
      * destruct (IH Hnd' Hin) as [H|[H1 H2]];
          [now left | right; split; [exact H1 | now right]].
Qed.

Let step m (e : string * V) := mapSet (fst e) (snd e) m.

(** The keys after the fold: the old keys, then the new ones where they
    first occur. *)
Lemma fold_keys es : forall m,
  map fst (fold_left step es m)
  = (map fst m ++
     filter (fun k => negb (member k (map fst m)))
            (firstOccurrences (map fst es)))%list.
Proof.
  induction es as [|[k v] es IH]; intros m; cbn [fold_left map fst firstOccurrences].
  - cbn [filter]. now rewrite app_nil_r.
  - rewrite IH. unfold step at 1 2; cbn [fst snd filter].
    destruct (in_dec string_dec k (map fst m)) as [Hin|Hnin].
    + rewrite mapSet_keys_in by exact Hin.
      apply member_In in Hin. rewrite Hin; cbn [negb].
      f_equal. rewrite filter_filter. apply filter_ext. intros y.
      destruct (String.eqb_spec y k) as [->|Hne]; cbn [negb andb];
        [now rewrite Hin | reflexivity].
    + rewrite mapSet_keys_notin by exact Hnin.
      assert (Hm : member k (map fst m) = false).
      { destruct (member k (map fst m)) eqn:E; [|reflexivity].
        apply member_In in E. now elim Hnin. }
      rewrite Hm; cbn [negb]. rewrite <- app_assoc. cbn [app]. do 2 f_equal.
      rewrite filter_filter. apply filter_ext. intros y.
      rewrite member_app. unfold member at 2; cbn [existsb]. rewrite orb_false_r.
      destruct (String.eqb y k); cbn [negb andb];
        [now rewrite orb_true_r | now rewrite orb_false_r].
Qed.

(** The value under a key after the fold is the one set last. *)
Lemma fold_last es : forall m k v,
  NoDup (map fst m) ->
  In (k, v) (fold_left step es m) ->
  (~ In k (map fst es) /\ In (k, v) m) \/
  (exists l1 l2, es = (l1 ++ (k, v) :: l2)%list /\ ~ In k (map fst l2)).
Proof.
  induction es as [|[k0 v0] es IH]; intros m k v Hnd Hin; cbn [fold_left] in Hin.
  - left. split; [intros [] | exact Hin].
  - assert (Hnd' : NoDup (map fst (step m (k0, v0)))) by now apply mapSet_NoDup.
    destruct (IH _ k v Hnd' Hin) as [[Hn Hm]|(l1 & l2 & -> & Hn)].
    + unfold step in Hm; cbn [fst snd] in Hm.
      apply mapSet_in in Hm; [|exact Hnd]. destruct Hm as [[-> ->]|[Hne Hm']].
      * right. exists [], es. split; [reflexivity | exact Hn].
      * left. split; [|exact Hm']. cbn [map fst]. intros [E|H]; [now elim Hne | now apply Hn].
    + right. exists ((k0, v0) :: l1), l2. split; [reflexivity | exact Hn].
Qed.

Lemma newMap_keys es : map fst (newMap es) = firstOccurrences (map fst es).
Proof.
  unfold newMap. change (fun m e => mapSet (fst e) (snd e) m) with step.
  rewrite fold_keys. cbn [map app]. apply filter_true. reflexivity.
Qed.

Lemma newMap_last es k v :
  In (k, v) (newMap es) ->
  exists l1 l2, es = (l1 ++ (k, v) :: l2)%list /\ ~ In k (map fst l2).
Proof.
  unfold newMap. change (fun m e => mapSet (fst e) (snd e) m) with step.
  intros Hin. destruct (@fold_last es [] k v) as [[_ []]|H];
    [constructor | exact Hin | exact H].
Qed.
End MapSet.

(** ** [uniqueResults] *)

Lemma entriesOf_keys (items : list SearchResultItem) :
  map fst (entriesOf items) = map url items.
Proof. unfold entriesOf. rewrite map_map. reflexivity. Qed.

Lemma newMap_keyed (items : list SearchResultItem) :
  forall k it, In (k, it) (newMap (entriesOf items)) -> k = url it.
Proof.
  intros k it Hin. apply newMap_last in Hin. destruct Hin as (l1 & l2 & E & _).
  assert (Hin : In (k, it) (entriesOf items)).
  { rewrite E. apply in_or_app. right. now left. }
  unfold entriesOf in Hin. apply in_map_iff in Hin.
  destruct Hin as (x & Ex & _). now injection Ex as <- <-.
Qed.

Lemma uniqueResults_urls (items : list SearchResultItem) :
  map url (uniqueResults items) = firstOccurrences (map url items).
Proof.
  unfold uniqueResults. fold (entriesOf items).
  rewrite <- (entriesOf_keys items), <- newMap_keys, map_map.
  apply map_ext_in. intros [k it] Hin. cbn [fst snd].
  symmetry. now apply newMap_keyed with (items := items).
Qed.

(** An item of the result is the last item of the input with its url. *)
Lemma uniqueResults_last (items : list SearchResultItem) (it : SearchResultItem) :
  In it (uniqueResults items) ->
  exists l1 l2, items = (l1 ++ it :: l2)%list /\ ~ In (url it) (map url l2).
Proof.
  unfold uniqueResults. fold (entriesOf items). intros Hin.
  apply in_map_iff in Hin. destruct Hin as ([k x] & E & Hin). cbn [snd] in E. subst x.
  pose proof (newMap_keyed _ _ _ Hin) as ->.
  apply newMap_last in Hin. destruct Hin as (e1 & e2 & E & Hn).
  unfold entriesOf in E. apply map_eq_app in E.
  destruct E as (l1 & l2' & -> & <- & E2).
  apply map_eq_cons in E2. destruct E2 as (x & l2 & -> & Ex & <-).
  injection Ex as _ ->.
  exists l1, l2. split; [reflexivity|].
  now rewrite map_map in Hn.
Qed.

(** ** The [forEach] over the chunks *)

Lemma pushChunk_citation (acc : list SearchResultItem) (chunk : GroundingChunk) :
  pushChunk acc chunk = (acc ++ citationOf chunk)%list.
Proof.
  unfold pushChunk, citationOf.
  destruct (chunkUri chunk) as [[|a u]|], (chunkTitle chunk) as [[|b t]|];
    cbn [truthy andb]; now rewrite ?app_nil_r.
Qed.

Lemma collectResults_citations (chunks : option (list GroundingChunk)) :
  collectResults chunks = citations chunks.
Proof.
  destruct chunks as [cs|]; [|reflexivity]. cbn [collectResults citations].
  enough (H : forall acc, fold_left pushChunk cs acc
                          = (acc ++ flat_map citationOf cs)%list) by apply (H []).
  induction cs as [|c cs IH]; intros acc; cbn [fold_left flat_map].
  - now rewrite app_nil_r.
  - now rewrite IH, pushChunk_citation, <- app_assoc.
Qed.

End DedupFacts.

(* ================================================================== *)
(** * Counting the quality sentence *)
(* ================================================================== *)

Module OccurrenceFacts.
Import JsString GeminiService Closed StringFacts.

Lemma suffix_is_sentence : QUALITY_SUFFIX = " " ++ QUALITY_SENTENCE.
Proof. reflexivity. Qed.

Lemma prefix_length (s x : string) : prefix s x = true -> length s <= length x.
Proof.
  revert x; induction s as [|a s IH]; intros [|b x]; cbn [prefix length]; intro H;
    try discriminate; try lia.
  destruct (ascii_dec a b); [|discriminate]. apply IH in H. lia.
Qed.

(** A needle no longer than [x] is a prefix of [x ++ y] exactly when it
    is one of [x]. *)
Lemma prefix_within (s x y : string) :
  length s <= length x -> prefix s (x ++ y) = prefix s x.
Proof.
  revert x; induction s as [|a s IH]; intros x Hl.
  - now rewrite !prefix_nil.
  - destruct x as [|b x]; cbn [length] in Hl; [lia|].
    cbn [append prefix]. destruct (ascii_dec a b); [|reflexivity].
    apply IH. lia.
Qed.

(** A needle longer than [x] that starts [x ++ y] continues into [y]. *)
Lemma prefix_across (s x y : string) :
  length x < length s -> prefix s (x ++ y) = true ->
  prefix (drop (length x) s) y = true.
Proof.
  revert s; induction x as [|b x IH]; intros s Hl H.
  - now rewrite drop_0.
  - destruct s as [|a s]; cbn [length] in Hl; [lia|].
    cbn [append prefix] in H. destruct (ascii_dec a b); [|discriminate].
    cbn [length drop]. apply IH; [lia | exact H].
Qed.

(** No proper tail of the sentence starts the suffix: the sentence does
    not overlap the copy appended after a space. *)
Lemma sentence_no_overlap (n : nat) :
  1 <= n < length QUALITY_SENTENCE ->
  prefix (drop n QUALITY_SENTENCE) QUALITY_SUFFIX = false.
Proof.
  intros Hn.
  assert (Hall : forallb (fun n => negb (prefix (drop n QUALITY_SENTENCE) QUALITY_SUFFIX))
                         (seq 1 (length QUALITY_SENTENCE - 1)) = true)
    by (vm_compute; reflexivity).
  rewrite forallb_forall in Hall.
  apply negb_true_iff, Hall, in_seq. lia.
Qed.

Lemma prefix_before_suffix (x : string) :
  x <> "" ->
  prefix QUALITY_SENTENCE (x ++ QUALITY_SUFFIX) = prefix QUALITY_SENTENCE x.
Proof.
  intros Hx.
  destruct (le_lt_dec (length QUALITY_SENTENCE) (length x)) as [Hl|Hl].
  - now apply prefix_within.
  - destruct (prefix QUALITY_SENTENCE x) eqn:E1.
    + apply prefix_length in E1. lia.
    + destruct (prefix QUALITY_SENTENCE (x ++ QUALITY_SUFFIX)) eqn:E2; [|reflexivity].
      apply prefix_across in E2; [|exact Hl].
      rewrite sentence_no_overlap in E2; [discriminate|].
      split; [|exact Hl]. destruct x; [now elim Hx | cbn [length]; lia].
Qed.

(** Appending the suffix adds one occurrence of the sentence. *)
Lemma occurrences_suffix (b : string) :
  occurrences QUALITY_SENTENCE (b ++ QUALITY_SUFFIX)
  = S (occurrences QUALITY_SENTENCE b).
Proof.
  induction b as [|c b IH].
  - vm_compute. reflexivity.
  - change (String c b ++ QUALITY_SUFFIX) with (String c (b ++ QUALITY_SUFFIX)).
    cbn [occurrences]. rewrite IH.
    change (String c (b ++ QUALITY_SUFFIX)) with (String c b ++ QUALITY_SUFFIX).
    rewrite prefix_before_suffix by discriminate. lia.
Qed.

(** The aspect sentence in front adds none. *)
Lemma occurrences_aspect (p : string) :
  occurrences QUALITY_SENTENCE (ASPECT_PREFIX ++ p) = occurrences QUALITY_SENTENCE p.
Proof. reflexivity. Qed.

Lemma occurrences_ensureAspect (p : string) :
  occurrences QUALITY_SENTENCE (ensureAspect p) = occurrences QUALITY_SENTENCE p.
Proof.
  unfold ensureAspect. destruct (_ && _); [apply occurrences_aspect | reflexivity].
Qed.

Lemma endsWith_append (a suffix : string) : endsWith suffix (a ++ suffix) = true.
Proof.
  unfold endsWith. rewrite length_append.
  replace (length a + length suffix - length suffix) with (length a) by lia.
  rewrite drop_append. apply String.eqb_refl.
Qed.

End OccurrenceFacts.

(* ================================================================== *)
(** * The operations in closed form *)
(* ================================================================== *)

Module ServiceFacts.
Import JsString Regex GenAI GeminiService Closed.
Import StringFacts RegexFacts PatternFacts DedupFacts OccurrenceFacts.
Local Open Scope outcome_scope.

Lemma parseFacts_closed (txt : string) :
  parseFacts txt = Ok (factsOfLines (factLines txt)).
Proof.
  unfold parseFacts. rewrite factsRaw_closed. cbn [bind].
  unfold factsOfLines, factLines. do 3 f_equal.
  apply map_ext. intros f. unfold cleanFact. now rewrite replace_bullet.
Qed.

(** The parse never throws; its three fields in closed form. *)
Lemma parseResearch_closed (topic levelInstr styleInstr : string)
      (response : GenerateContentResponse) :
  parseResearch topic levelInstr styleInstr response
  = Ok (mkResearch
          (finishPrompt (basePrompt (responseText response) topic levelInstr styleInstr))
          (factsOfLines (factLines (responseText response)))
          (uniqueResults (citations (chunksOf response)))).
Proof.
  unfold parseResearch. rewrite parseFacts_closed, extractedPrompt_closed.
  cbn [bind]. now rewrite collectResults_citations.
Qed.

Lemma research_run (generateContent : Provider) (topic : string)
      (level : ComplexityLevel) (style : VisualStyle) (language : Language)
      (response : GenerateContentResponse) :
  generateContent (researchRequest topic level style language) = Ok response ->
  run generateContent (researchTopicForPrompt topic level style language)
  = Ok (mkResearch
          (finishPrompt (basePrompt (responseText response) topic
                           (getLevelInstruction level) (getStyleInstruction style)))
          (factsOfLines (factLines (responseText response)))
          (uniqueResults (citations (chunksOf response)))).
Proof.
  intros H. unfold researchTopicForPrompt. cbn [run]. rewrite H.
  now rewrite parseResearch_closed.
Qed.

(** ** The scan of the parts *)

Lemma scanParts_none (ps : list Part) :
  scanParts ps = None <-> forall part, In part ps -> hasInlineData part = false.
Proof.
  induction ps as [|p ps IH]; cbn [scanParts].
  - split; [intros _ part [] | reflexivity].
  - unfold hasInlineData in *.
    destruct (inlineData p) as [b|] eqn:Eb.
    + destruct (data b) as [[|c d]|] eqn:Ed.
      * rewrite IH. split.
        -- intros H part [<-|Hin]; [now rewrite Eb, Ed | now apply H].
        -- intros H part Hin. apply H. now right.
      * split; [discriminate|]. intros H.
        specialize (H p (or_introl eq_refl)). now rewrite Eb, Ed in H.
      * rewrite IH. split.
        -- intros H part [<-|Hin]; [now rewrite Eb, Ed | now apply H].
        -- intros H part Hin. apply H. now right.
    + rewrite IH. split.
      * intros H part [<-|Hin]; [now rewrite Eb | now apply H].
      * intros H part Hin. apply H. now right.
Qed.

Lemma scanParts_first (before after : list Part) (part : Part) :
  (forall q, In q before -> hasInlineData q = false) ->
  hasInlineData part = true ->
  scanParts (before ++ part :: after)
  = Some ("data:image/png;base64," ++ payload part).
Proof.
  induction before as [|q before IH]; intros Hb Hp; cbn [app scanParts].
  - unfold hasInlineData, payload in *.
    destruct (inlineData part) as [b|]; [|discriminate].
    destruct (data b) as [[|c d]|]; try discriminate. reflexivity.
  - assert (Hq : hasInlineData q = false) by (apply Hb; now left).
    unfold hasInlineData in Hq.
    destruct (inlineData q) as [b|].
    + destruct (data b) as [[|c d]|]; try discriminate;
        apply IH; [intros; apply Hb; now right | exact Hp
                  | intros; apply Hb; now right | exact Hp].
    + apply IH; [intros; apply Hb; now right | exact Hp].
Qed.

Lemma imageOrThrow_scans (message : string) (response : GenerateContentResponse) :
  scansTo (responseParts response) message (imageOrThrow message response).
Proof.
  unfold scansTo, imageOrThrow. split.
  - rewrite <- scanParts_none.
    destruct (scanParts (responseParts response)); split; congruence.
  - intros before part after E Hb Hp.
    now rewrite E, (@scanParts_first before after part Hb Hp).
Qed.

(** ** The prompt *)

Lemma fallback_has_aspect (topic levelInstr styleInstr : string) :
  ensureAspect (fallbackPrompt topic levelInstr styleInstr)
  = fallbackPrompt topic levelInstr styleInstr.
Proof.
  unfold ensureAspect.
  assert (H : includes "16:9" (toLowerCase (fallbackPrompt topic levelInstr styleInstr))
              = true).
  { change (toLowerCase (fallbackPrompt topic levelInstr styleInstr))
      with ("create a detailed " ++ "16:9" ++
            toLowerCase (" widescreen format infographic about " ++ topic
                           ++ ". " ++ levelInstr ++ " " ++ styleInstr)).
    apply includes_append. }
  now rewrite H.
Qed.

(** ** The data URI prefix *)

Lemma stripDataUri_png (rest : string) :
  stripDataUri ("data:image/png;base64," ++ rest) = rest.
Proof.
  unfold stripDataUri. rewrite prefix_append.
  apply (drop_append "data:image/png;base64," rest).
Qed.

Lemma stripDataUri_jpeg (rest : string) :
  stripDataUri ("data:image/jpeg;base64," ++ rest) = rest.
Proof.
  unfold stripDataUri.
  change (prefix "data:image/png;base64," ("data:image/jpeg;base64," ++ rest))
    with false.
  rewrite prefix_append.
  apply (drop_append "data:image/jpeg;base64," rest).
Qed.

Lemma stripDataUri_jpg (rest : string) :
  stripDataUri ("data:image/jpg;base64," ++ rest) = rest.
Proof.
  unfold stripDataUri.
  change (prefix "data:image/png;base64," ("data:image/jpg;base64," ++ rest))
    with false.
  change (prefix "data:image/jpeg;base64," ("data:image/jpg;base64," ++ rest))
    with false.
  rewrite prefix_append.
  apply (drop_append "data:image/jpg;base64," rest).
Qed.

(** ** Lines *)

Lemma trimStart_idem (s : string) : trimStart (trimStart s) = trimStart s.
Proof.
  induction s as [|c s IH]; cbn [trimStart]; [reflexivity|].
  destruct (isWhiteSpace c) eqn:E; [exact IH|]. cbn [trimStart]. now rewrite E.
Qed.

(** A line that starts with a hyphen loses it and the white space around
    what follows; any other line is trimmed. *)
Lemma clean_bulleted (s : string) :
  trim (stripBullet (String "-" s)) = trim s.
Proof.
  change (stripBullet (String "-" s)) with (trimStart s).
  unfold trim. now rewrite trimStart_idem.
Qed.

Lemma clean_plain (c : ascii) (s : string) :
  c <> "-"%char -> trim (stripBullet (String c s)) = trim (String c s).
Proof.
  intros H. cbn [stripBullet]. apply Ascii.eqb_neq in H. now rewrite H.
Qed.

End ServiceFacts.

(* ================================================================== *)
(** * The operations on sample responses *)
(* ================================================================== *)

Module Examples.
Import JsString Regex GenAI GeminiService Closed Samples.

Example two_facts_and_a_prompt :
  parseResearch "Bees" (getLevelInstruction "College") (getStyleInstruction "Sketch")
                (textOnly twoFacts)
  = Ok (mkResearch (ASPECT_PREFIX ++ "Foo" ++ QUALITY_SUFFIX) ["A"; "B"] []).
Proof. vm_compute. reflexivity. Qed.

Example headers_in_any_case :
  parseFacts ("facts:" ++ nl ++ "-   spaced   " ++ nl ++ "  - indented" ++ nl
                ++ nl ++ "plain" ++ nl ++ "image_prompt: x")
  = Ok ["spaced"; "- indented"; "plain"].
Proof. vm_compute. reflexivity. Qed.

Example unknown_level_and_style :
  getLevelInstruction "Toddler"
  = "Target Audience: General Public. Design Requirements: Clear, accessible design with readable text and balanced complexity."
  /\ getStyleInstruction "Baroque" = getStyleInstruction "".
Proof. split; reflexivity. Qed.

Example jpeg_prefix_removed :
  cleanBase64 "data:image/jpeg;base64,data:image/png;base64,QUJD"
  = "data:image/png;base64,QUJD".
Proof. vm_compute. reflexivity. Qed.

Example provider_failure_propagates :
  run (fun _ => Throw (ProviderError "quota")) (generateInfographicImage "A chart")
  = Throw (ProviderError "quota").
Proof. reflexivity. Qed.

End Examples.

(* ================================================================== *)
(** * The properties of the specification *)
(* ================================================================== *)

Module Claims.
Import JsString Regex GenAI GeminiService Closed Samples.
Import StringFacts RegexFacts PatternFacts DedupFacts OccurrenceFacts ServiceFacts.

Lemma run_settle {A : Type} (generateContent : Provider) (c : Outcome A) :
  run generateContent (settle c) = c.
Proof. now destruct c. Qed.

Lemma sent_settle {A : Type} (generateContent : Provider) (c : Outcome A) :
  sent generateContent (settle c) = [].
Proof. now destruct c. Qed.

(** An operation that awaits one call sends that one request. *)
Lemma sent_single {A : Type} (generateContent : Provider)
      (request : GenerateContentParameters)
      (k : GenerateContentResponse -> Outcome A) :
  sent generateContent (Await request (fun response => settle (k response)))
  = [request].
Proof.
  cbn [sent]. destruct (generateContent request); [now rewrite sent_settle | reflexivity].
Qed.

Lemma run_single {A : Type} (generateContent : Provider)
      (request : GenerateContentParameters)
      (k : GenerateContentResponse -> Outcome A)
      (response : GenerateContentResponse) :
  generateContent request = Ok response ->
  run generateContent (Await request (fun response => settle (k response)))
  = k response.
Proof. intros H. cbn [run]. rewrite H. apply run_settle. Qed.

(* ---------------------------------------------------------------- *)

(** C1, as amended.  The search results that [researchTopicForPrompt]
    returns hold exactly one citation for each distinct url among the
    chunks that have a non-empty uri and a non-empty title, in the order
    in which the urls first occur; a repeated url makes no second entry.
    The entry kept for a url is the last citation with that url, so its
    title is that of the last occurrence. *)
Theorem search_results_one_per_url :
  forall (generateContent : Provider) (topic : string) (level : ComplexityLevel)
         (style : VisualStyle) (language : Language)
         (response : GenerateContentResponse),
    generateContent (researchRequest topic level style language) = Ok response ->
    exists r,
      run generateContent (researchTopicForPrompt topic level style language) = Ok r /\
      map url (searchResults r)
      = firstOccurrences (map url (citations (chunksOf response))) /\
      NoDup (map url (searchResults r)) /\
      (forall u, In u (map url (searchResults r))
                 <-> In u (map url (citations (chunksOf response)))) /\
      (forall it, In it (searchResults r) ->
         exists l1 l2,
           citations (chunksOf response) = (l1 ++ it :: l2)%list /\
           ~ In (url it) (map url l2)).
Proof.
  intros gc topic level style language response H.
  eexists. split; [apply (research_run _ _ _ _ _ H)|]. cbn [searchResults].
  repeat split.
  - apply uniqueResults_urls.
  - rewrite uniqueResults_urls. apply firstOccurrences_NoDup.
  - rewrite uniqueResults_urls. apply firstOccurrences_In.
  - rewrite uniqueResults_urls. apply firstOccurrences_In.
  - apply uniqueResults_last.
Qed.

Lemma search_results_one_per_url_witness :
  answering (grounded twoFacts threeChunks)
            (researchRequest "Bees" "College" "Sketch" "English")
  = Ok (grounded twoFacts threeChunks)
  /\ exists r,
      run (answering (grounded twoFacts threeChunks))
          (researchTopicForPrompt "Bees" "College" "Sketch" "English") = Ok r
      /\ map url (searchResults r) = ["u1"; "u2"].
Proof.
  split; [reflexivity|].
  destruct (@search_results_one_per_url
              (answering (grounded twoFacts threeChunks))
              "Bees" "College" "Sketch" "English"
              (grounded twoFacts threeChunks) eq_refl)
    as (r & Hr & Hu & _).
  exists r. split; [exact Hr | exact Hu].
Defined.

(** C1 as stated fails: for the chunks u1/T1, u1/T2, u2/T3 the entry for
    u1 carries T2, the title of its last occurrence, and no entry carries
    T1, the title of the first. *)
Lemma first_title_not_retained :
  firstTitle "u1" (citations (Some threeChunks)) = Some "T1" /\
  exists r,
    run (answering (grounded twoFacts threeChunks))
        (researchTopicForPrompt "Bees" "College" "Sketch" "English") = Ok r /\
    searchResults r = [mkItem "T2" "u1"; mkItem "T3" "u2"] /\
    firstTitle "u1" (searchResults r) <> Some "T1".
Proof.
  split; [reflexivity|].
  eexists. split; [vm_compute; reflexivity|].
  split; [reflexivity | discriminate].
Qed.

(* ---------------------------------------------------------------- *)

(** C2, as amended.  [generateInfographicImage] and
    [editInfographicImage] send their one request with the same sampling
    configuration, temperature 0.4, topK 32 and topP 0.95;
    [fixInfographicImage] sends its request without a configuration. *)
Theorem sampling_parameters_generate_and_edit :
  forall (generateContent : Provider) (prompt image instruction : string),
    map config (sent generateContent (generateInfographicImage prompt))
    = [Some samplingConfig] /\
    map config (sent generateContent (editInfographicImage image instruction))
    = [Some samplingConfig] /\
    map config (sent generateContent (fixInfographicImage image instruction))
    = [None] /\
    temperature samplingConfig = Some (4 # 10)%Q /\
    topK samplingConfig = Some (32 # 1)%Q /\
    topP samplingConfig = Some (95 # 100)%Q.
Proof.
  intros gc prompt image instruction.
  unfold generateInfographicImage, editInfographicImage, fixInfographicImage.
  rewrite !sent_single. repeat split.
Qed.

(** C2 as stated fails: the request of [fixInfographicImage] has no
    configuration, so it carries none of the sampling parameters that the
    request of [generateInfographicImage] carries. *)
Lemma fix_request_has_no_sampling :
  map config (sent (answering (withParts []))
                   (fixInfographicImage "aGVsbG8=" "Fix the title"))
  = [None] /\
  map config (sent (answering (withParts []))
                   (generateInfographicImage "A chart of bees"))
  = [Some samplingConfig] /\
  map config (sent (answering (withParts []))
                   (fixInfographicImage "aGVsbG8=" "Fix the title"))
  <> map config (sent (answering (withParts []))
                      (generateInfographicImage "A chart of bees")).
Proof. repeat split. discriminate. Qed.

(* ---------------------------------------------------------------- *)

(** C3.  When the provider answers, each of [generateInfographicImage],
    [editInfographicImage] and [fixInfographicImage] throws its error
    exactly when no part of the first candidate carries inline data, and
    otherwise returns the data of the first part that does, prefixed with
    data:image/png;base64, *)
Theorem image_is_first_inline_part :
  forall (generateContent : Provider)
         (prompt image1 instruction1 image2 instruction2 : string)
         (r1 r2 r3 : GenerateContentResponse),
    generateContent (generateRequest prompt) = Ok r1 ->
    generateContent (editRequest image1 instruction1) = Ok r2 ->
    generateContent (fixRequest image2 instruction2) = Ok r3 ->
    scansTo (responseParts r1) "Failed to generate image"
            (run generateContent (generateInfographicImage prompt)) /\
    scansTo (responseParts r2) "Failed to edit image"
            (run generateContent (editInfographicImage image1 instruction1)) /\
    scansTo (responseParts r3) "Failed to fix image"
            (run generateContent (fixInfographicImage image2 instruction2)).
Proof.
  intros gc prompt image1 instruction1 image2 instruction2 r1 r2 r3 H1 H2 H3.
  unfold generateInfographicImage, editInfographicImage, fixInfographicImage.
  rewrite (run_single _ _ _ H1), (run_single _ _ _ H2), (run_single _ _ _ H3).
  repeat split; apply imageOrThrow_scans.
Qed.

Lemma image_is_first_inline_part_witness :
  let response := withParts [textPart "Here it is"; inlinePart "image/png" "QUJD"] in
  answering response (generateRequest "A chart") = Ok response /\
  answering response (editRequest "aGk=" "Bigger title") = Ok response /\
  answering response (fixRequest "aGk=" "Fix the title") = Ok response /\
  run (answering response) (generateInfographicImage "A chart")
  = Ok "data:image/png;base64,QUJD" /\
  run (answering (withParts [textPart "Sorry"])) (fixInfographicImage "aGk=" "Fix the title")
  = Throw (Error "Failed to fix image").
Proof.
  intros response.
  split; [reflexivity|]. split; [reflexivity|]. split; [reflexivity|]. split.
  - destruct (@image_is_first_inline_part (answering response)
                "A chart" "aGk=" "Bigger title" "aGk=" "Fix the title"
                response response response eq_refl eq_refl eq_refl)
      as ((_ & Hfirst) & _ & _).
    apply (Hfirst [textPart "Here it is"] (inlinePart "image/png" "QUJD") []);
      [reflexivity | | reflexivity].
    intros q [<-|[]]. reflexivity.
  - destruct (@image_is_first_inline_part (answering (withParts [textPart "Sorry"]))
                "A chart" "aGk=" "Bigger title" "aGk=" "Fix the title"
                _ _ _ eq_refl eq_refl eq_refl)
      as (_ & _ & (Hnone & _)).
    apply Hnone. intros part [<-|[]]. reflexivity.
Defined.

(* ---------------------------------------------------------------- *)

(** C4, as amended.  The image prompt that [researchTopicForPrompt]
    returns is the extracted or fallback prompt, with the aspect sentence
    in front when the test asks for it, followed by a space and the
    quality sentence.  So it ends with that sentence, and it holds the
    sentence once more than the extracted or fallback prompt does: exactly
    once when that prompt does not hold it already. *)
Theorem image_prompt_ends_with_quality_sentence :
  forall (generateContent : Provider) (topic : string) (level : ComplexityLevel)
         (style : VisualStyle) (language : Language)
         (response : GenerateContentResponse),
    generateContent (researchRequest topic level style language) = Ok response ->
    exists r,
      run generateContent (researchTopicForPrompt topic level style language) = Ok r /\
      let p := basePrompt (responseText response) topic
                          (getLevelInstruction level) (getStyleInstruction style) in
      imagePrompt r = ensureAspect p ++ " " ++ QUALITY_SENTENCE /\
      endsWith QUALITY_SENTENCE (imagePrompt r) = true /\
      occurrences QUALITY_SENTENCE (imagePrompt r)
      = S (occurrences QUALITY_SENTENCE p).
Proof.
  intros gc topic level style language response H.
  eexists. split; [apply (research_run _ _ _ _ _ H)|].
  cbn [imagePrompt]. unfold finishPrompt.
  split; [reflexivity|]. split.
  - rewrite suffix_is_sentence, <- append_assoc. apply endsWith_append.
  - now rewrite occurrences_suffix, occurrences_ensureAspect.
Qed.

Lemma image_prompt_ends_with_quality_sentence_witness :
  answering (textOnly twoFacts) (researchRequest "Bees" "College" "Sketch" "English")
  = Ok (textOnly twoFacts)
  /\ exists r,
      run (answering (textOnly twoFacts))
          (researchTopicForPrompt "Bees" "College" "Sketch" "English") = Ok r
      /\ occurrences QUALITY_SENTENCE (imagePrompt r) = 1.
Proof.
  split; [reflexivity|].
  destruct (@image_prompt_ends_with_quality_sentence
              (answering (textOnly twoFacts)) "Bees" "College" "Sketch" "English"
              (textOnly twoFacts) eq_refl)
    as (r & Hr & _ & _ & Hocc).
  exists r. split; [exact Hr | exact Hocc].
Defined.

(** C4 as stated fails: when the response's prompt is the quality
    sentence itself, the returned prompt holds the sentence twice. *)
Lemma quality_sentence_twice :
  exists r,
    run (answering (textOnly echoedQuality))
        (researchTopicForPrompt "Bees" "College" "Sketch" "English") = Ok r /\
    imagePrompt r
    = ASPECT_SENTENCE ++ " " ++ QUALITY_SENTENCE ++ " " ++ QUALITY_SENTENCE /\
    occurrences QUALITY_SENTENCE (imagePrompt r) = 2.
Proof.
  eexists. split; [vm_compute; reflexivity|].
  split; vm_compute; reflexivity.
Qed.

(* ---------------------------------------------------------------- *)

(** C5.  When the extracted or fallback prompt, put in lower case, holds
    neither 16:9 nor widescreen, the returned image prompt starts with
    the aspect sentence, followed by that prompt; when it holds either,
    the returned prompt starts with that prompt itself. *)
Theorem aspect_sentence_prepended_when_missing :
  forall (generateContent : Provider) (topic : string) (level : ComplexityLevel)
         (style : VisualStyle) (language : Language)
         (response : GenerateContentResponse),
    generateContent (researchRequest topic level style language) = Ok response ->
    exists r,
      run generateContent (researchTopicForPrompt topic level style language) = Ok r /\
      let p := basePrompt (responseText response) topic
                          (getLevelInstruction level) (getStyleInstruction style) in
      (includes "16:9" (toLowerCase p) = false ->
       includes "widescreen" (toLowerCase p) = false ->
       imagePrompt r = ASPECT_SENTENCE ++ " " ++ p ++ QUALITY_SUFFIX) /\
      (includes "16:9" (toLowerCase p) = true \/
       includes "widescreen" (toLowerCase p) = true ->
       imagePrompt r = p ++ QUALITY_SUFFIX).
Proof.
  intros gc topic level style language response H.
  eexists. split; [apply (research_run _ _ _ _ _ H)|].
  cbn [imagePrompt]. unfold finishPrompt, ensureAspect. split.
  - intros H1 H2. rewrite H1, H2. cbn [negb andb].
    change ASPECT_PREFIX with (ASPECT_SENTENCE ++ " ").
    now rewrite !append_assoc.
  - intros [H1|H2]; [rewrite H1 | rewrite H2]; cbn [negb andb];
      [reflexivity | now rewrite andb_false_r].
Qed.

Lemma aspect_sentence_prepended_when_missing_witness :
  answering (textOnly twoFacts) (researchRequest "Bees" "College" "Sketch" "English")
  = Ok (textOnly twoFacts)
  /\ exists r,
      run (answering (textOnly twoFacts))
          (researchTopicForPrompt "Bees" "College" "Sketch" "English") = Ok r
      /\ imagePrompt r = ASPECT_SENTENCE ++ " " ++ "Foo" ++ QUALITY_SUFFIX.
Proof.
  split; [reflexivity|].
  destruct (@aspect_sentence_prepended_when_missing
              (answering (textOnly twoFacts)) "Bees" "College" "Sketch" "English"
              (textOnly twoFacts) eq_refl)
    as (r & Hr & Hadd & _).
  exists r. split; [exact Hr|].
  apply Hadd; vm_compute; reflexivity.
Defined.

(* ---------------------------------------------------------------- *)

(** C6, as amended.  The facts that [researchTopicForPrompt] returns are
    got from the lines of the FACTS section by removing from each line a
    leading hyphen together with any white space after it (a hyphen
    followed by a space, but also a hyphen alone), then the white space
    around what is left, dropping the empty results and keeping the first
    five in their order.  There are never more than five, there are five
    as soon as five lines are left, and the response with eight bulleted
    facts gives its first five. *)
Theorem facts_are_first_five_cleaned_lines :
  forall (generateContent : Provider) (topic : string) (level : ComplexityLevel)
         (style : VisualStyle) (language : Language)
         (response : GenerateContentResponse),
    generateContent (researchRequest topic level style language) = Ok response ->
    exists r,
      run generateContent (researchTopicForPrompt topic level style language) = Ok r /\
      let cleaned :=
        filter nonEmpty
               (map (fun l => trim (stripBullet l))
                    (factLines (responseText response))) in
      facts r = firstn 5 cleaned /\
      List.length (facts r) <= 5 /\
      List.length (facts r) = Nat.min 5 (List.length cleaned) /\
      (responseText response = eightFacts ->
       facts r = ["one"; "two"; "three"; "four"; "five"]).
Proof.
  intros gc topic level style language response H.
  eexists. split; [apply (research_run _ _ _ _ _ H)|].
  cbn [facts]. unfold factsOfLines.
  split; [reflexivity|]. split; [|split].
  - rewrite length_firstn. lia.
  - apply length_firstn.
  - intros ->. vm_compute. reflexivity.
Qed.

Lemma facts_are_first_five_cleaned_lines_witness :
  answering (textOnly eightFacts) (researchRequest "Bees" "College" "Sketch" "English")
  = Ok (textOnly eightFacts)
  /\ exists r,
      run (answering (textOnly eightFacts))
          (researchTopicForPrompt "Bees" "College" "Sketch" "English") = Ok r
      /\ facts r = ["one"; "two"; "three"; "four"; "five"].
Proof.
  split; [reflexivity|].
  destruct (@facts_are_first_five_cleaned_lines
              (answering (textOnly eightFacts)) "Bees" "College" "Sketch" "English"
              (textOnly eightFacts) eq_refl)
    as (r & Hr & _ & _ & _ & Height).
  exists r. split; [exact Hr | apply Height; reflexivity].
Defined.

(** C6 as stated fails: a line that starts with a hyphen and no space
    loses the hyphen, where removing the two characters hyphen, space
    would leave it. *)
Lemma hyphen_without_space_is_stripped :
  exists r,
    run (answering (textOnly tightBullet))
        (researchTopicForPrompt "Bees" "College" "Sketch" "English") = Ok r /\
    factLines tightBullet = ["-A"; "- B"] /\
    facts r = ["A"; "B"] /\
    factsAsWorded (factLines tightBullet) = ["-A"; "B"] /\
    facts r <> factsAsWorded (factLines tightBullet).
Proof.
  eexists. split; [vm_compute; reflexivity|].
  split; [vm_compute; reflexivity|].
  split; [reflexivity|].
  split; [vm_compute; reflexivity|].
  vm_compute. discriminate.
Qed.

(* ---------------------------------------------------------------- *)

(** C7.  Whatever the response text, the parse of
    [researchTopicForPrompt] throws nothing and returns a result.  With no
    FACTS: header in the text the facts are empty; with no IMAGE_PROMPT:
    header the prompt is the fallback built from the topic and the two
    instructions, followed by the quality sentence, and so holds the
    topic; an empty text gives both defaults. *)
Theorem parsing_is_total_with_defaults :
  forall (generateContent : Provider) (topic : string) (level : ComplexityLevel)
         (style : VisualStyle) (language : Language)
         (response : GenerateContentResponse),
    generateContent (researchRequest topic level style language) = Ok response ->
    exists r,
      run generateContent (researchTopicForPrompt topic level style language) = Ok r /\
      let fallback := fallbackPrompt topic (getLevelInstruction level)
                                     (getStyleInstruction style) in
      (hasHeader "FACTS:" (responseText response) = false -> facts r = []) /\
      (hasHeader "IMAGE_PROMPT:" (responseText response) = false ->
       imagePrompt r = fallback ++ QUALITY_SUFFIX /\
       includes topic (imagePrompt r) = true) /\
      (responseText response = "" ->
       facts r = [] /\ imagePrompt r = fallback ++ QUALITY_SUFFIX).
Proof.
  intros gc topic level style language response H.
  eexists. split; [apply (research_run _ _ _ _ _ H)|].
  cbn [facts imagePrompt].
  assert (Hfacts : hasHeader "FACTS:" (responseText response) = false ->
                   factsOfLines (factLines (responseText response)) = []).
  { unfold hasHeader, factLines, factsSection. intros Hh.
    destruct (afterHeader "FACTS:" (responseText response)); [discriminate|].
    reflexivity. }
  assert (Hprompt : hasHeader "IMAGE_PROMPT:" (responseText response) = false ->
                    finishPrompt (basePrompt (responseText response) topic
                                    (getLevelInstruction level)
                                    (getStyleInstruction style))
                    = fallbackPrompt topic (getLevelInstruction level)
                                     (getStyleInstruction style) ++ QUALITY_SUFFIX).
  { unfold hasHeader, basePrompt, promptSection. intros Hh.
    destruct (afterHeader "IMAGE_PROMPT:" (responseText response)); [discriminate|].
    unfold finishPrompt. now rewrite fallback_has_aspect. }
  split; [exact Hfacts|]. split.
  - intros Hh. rewrite (Hprompt Hh). split; [reflexivity|].
    unfold fallbackPrompt. rewrite !append_assoc. apply includes_append.
  - intros E. split; [apply Hfacts | apply Hprompt]; now rewrite E.
Qed.

Lemma parsing_is_total_with_defaults_witness :
  answering (textOnly "") (researchRequest "Bees" "College" "Sketch" "English")
  = Ok (textOnly "")
  /\ exists r,
      run (answering (textOnly ""))
          (researchTopicForPrompt "Bees" "College" "Sketch" "English") = Ok r
      /\ facts r = []
      /\ includes "Bees" (imagePrompt r) = true.
Proof.
  split; [reflexivity|].
  destruct (@parsing_is_total_with_defaults
              (answering (textOnly "")) "Bees" "College" "Sketch" "English"
              (textOnly "") eq_refl)
    as (r & Hr & Hfacts & Hprompt & _).
  exists r. split; [exact Hr|]. split.
  - apply Hfacts. reflexivity.
  - apply Hprompt. reflexivity.
Defined.

(* ---------------------------------------------------------------- *)

(** C8.  An image that starts with data:image/png;base64, or with the
    jpeg or jpg form of that prefix is attached by [fixInfographicImage]
    and by [editInfographicImage] without the prefix, the rest untouched;
    an image that starts with none of the three is attached as it is. *)
Theorem data_uri_prefix_is_stripped :
  forall (generateContent : Provider) (image instruction : string),
    (forall mime rest,
        In mime ["png"; "jpeg"; "jpg"] ->
        image = "data:image/" ++ mime ++ ";base64," ++ rest ->
        map data (flat_map inlineBlobs
                    (sent generateContent (fixInfographicImage image instruction)))
        = [Some rest] /\
        map data (flat_map inlineBlobs
                    (sent generateContent (editInfographicImage image instruction)))
        = [Some rest]) /\
    (prefix "data:image/png;base64," image = false ->
     prefix "data:image/jpeg;base64," image = false ->
     prefix "data:image/jpg;base64," image = false ->
     map data (flat_map inlineBlobs
                 (sent generateContent (fixInfographicImage image instruction)))
     = [Some image] /\
     map data (flat_map inlineBlobs
                 (sent generateContent (editInfographicImage image instruction)))
     = [Some image]).
Proof.
  intros gc image instruction.
  unfold fixInfographicImage, editInfographicImage. rewrite !sent_single.
  cbn [flat_map inlineBlobs fixRequest editRequest contents inlinePart textPart
       inlineData app map data].
  unfold cleanBase64. rewrite replace_dataUri. split.
  - intros mime rest Hm ->.
    assert (E : stripDataUri ("data:image/" ++ mime ++ ";base64," ++ rest) = rest).
    { destruct Hm as [<-|[<-|[<-|[]]]].
      - apply (stripDataUri_png rest).
      - apply (stripDataUri_jpeg rest).
      - apply (stripDataUri_jpg rest). }
    rewrite E. split; reflexivity.
  - intros H1 H2 H3. unfold stripDataUri. rewrite H1, H2, H3. split; reflexivity.
Qed.

Lemma data_uri_prefix_is_stripped_witness :
  In "jpeg" ["png"; "jpeg"; "jpg"] /\
  map data (flat_map inlineBlobs
              (sent (answering (withParts []))
                    (fixInfographicImage "data:image/jpeg;base64,aGk=" "Fix the title")))
  = [Some "aGk="] /\
  map data (flat_map inlineBlobs
              (sent (answering (withParts []))
                    (editInfographicImage "aGk=" "Bigger title")))
  = [Some "aGk="].
Proof.
  split; [right; left; reflexivity|]. split.
  - apply (proj1 (@data_uri_prefix_is_stripped (answering (withParts []))
                    "data:image/jpeg;base64,aGk=" "Fix the title")
                 "jpeg" "aGk=");
      [right; left; reflexivity | reflexivity].
  - apply (proj2 (@data_uri_prefix_is_stripped (answering (withParts []))
                    "aGk=" "Bigger title")); reflexivity.
Defined.

(* ---------------------------------------------------------------- *)

(** C9.  Whatever the image and the instruction, the one inline blob in
    the request of [fixInfographicImage] and of [editInfographicImage] is
    the image without its prefix, labelled image/jpeg; so an image given
    with the prefix data:image/png;base64, goes out labelled
    image/jpeg. *)
Theorem attached_image_is_labelled_jpeg :
  forall (generateContent : Provider) (image instruction rest : string),
    flat_map inlineBlobs
             (sent generateContent (fixInfographicImage image instruction))
    = [mkBlob (Some "image/jpeg") (Some (cleanBase64 image))] /\
    flat_map inlineBlobs
             (sent generateContent (editInfographicImage image instruction))
    = [mkBlob (Some "image/jpeg") (Some (cleanBase64 image))] /\
    flat_map inlineBlobs
             (sent generateContent
                   (fixInfographicImage ("data:image/png;base64," ++ rest) instruction))
    = [mkBlob (Some "image/jpeg") (Some rest)] /\
    flat_map inlineBlobs
             (sent generateContent
                   (editInfographicImage ("data:image/png;base64," ++ rest) instruction))
    = [mkBlob (Some "image/jpeg") (Some rest)].
Proof.
  intros gc image instruction rest.
  unfold fixInfographicImage, editInfographicImage. rewrite !sent_single.
  cbn [flat_map inlineBlobs fixRequest editRequest contents inlinePart textPart
       inlineData app].
  unfold cleanBase64. rewrite !replace_dataUri, stripDataUri_png.
  split; [reflexivity|]. split; [reflexivity|]. split; reflexivity.
Qed.

(* ---------------------------------------------------------------- *)

(** C10.  [verifyInfographicAccuracy] returns the same successful result
    for all arguments, with [isAccurate] true; it calls nothing and reads
    none of its arguments. *)
Theorem verification_is_a_fixed_success :
  forall (generateContent : Provider) (image topic : string)
         (level : ComplexityLevel) (style : VisualStyle) (language : Language),
    run generateContent (verifyInfographicAccuracy image topic level style language)
    = Ok (mkVerification true "Verification bypassed.") /\
    sent generateContent (verifyInfographicAccuracy image topic level style language)
    = [] /\
    (forall image' topic' level' style' language',
        verifyInfographicAccuracy image' topic' level' style' language'
        = verifyInfographicAccuracy image topic level style language).
Proof. intros. repeat split. Qed.

End Claims.

(* ================================================================== *)
(** * Further facts about the operations *)
(* ================================================================== *)

Module MoreFacts.
Import JsString Regex GenAI GeminiService Closed Samples Shapes.
Import StringFacts RegexFacts PatternFacts DedupFacts OccurrenceFacts ServiceFacts.

(** ** The Map collapse on lists without repetition *)

Lemma firstOccurrences_NoDup_id (l : list string) :
  NoDup l -> firstOccurrences l = l.
Proof.
  induction 1 as [|x l Hn Hd IH]; cbn [firstOccurrences]; [reflexivity|].
  rewrite IH. f_equal. apply filter_true. intros y Hy.
  apply negb_true_iff, String.eqb_neq. intros ->. now apply Hn.
Qed.

Lemma mapSet_fresh {V : Type} (k : string) (v : V) (m : list (string * V)) :
  ~ In k (map fst m) -> mapSet k v m = (m ++ [(k, v)])%list.
Proof.
  induction m as [|[k' v'] m IH]; cbn [mapSet map fst app]; intros Hn.
  - reflexivity.
  - destruct (String.eqb_spec k' k) as [->|Hne].
    + elim Hn. now left.
    + f_equal. apply IH. intro H. apply Hn. now right.
Qed.

Lemma fold_mapSet_fresh {V : Type} (es : list (string * V)) :
  forall m,
    NoDup (map fst m ++ map fst es) ->
    fold_left (fun m e => mapSet (fst e) (snd e) m) es m = (m ++ es)%list.
Proof.
  induction es as [|[k v] es IH]; intros m Hnd; cbn [fold_left fst snd].
  - now rewrite app_nil_r.
  - cbn [map fst] in Hnd.
    rewrite mapSet_fresh.
    + rewrite IH; [now rewrite <- app_assoc|].
      rewrite map_app; cbn [map fst]. now rewrite <- app_assoc.
    + apply NoDup_remove_2 in Hnd. intro H. apply Hnd.
      apply in_or_app. now left.
Qed.

Lemma uniqueResults_NoDup_id (items : list SearchResultItem) :
  NoDup (map url items) -> uniqueResults items = items.
Proof.
  intros Hnd. unfold uniqueResults, newMap.
  rewrite fold_mapSet_fresh.
  - cbn [app]. rewrite map_map. cbn [snd]. apply map_id.
  - cbn [map app]. now rewrite map_map.
Qed.

Lemma uniqueResults_NoDup (items : list SearchResultItem) :
  NoDup (map url (uniqueResults items)).
Proof. rewrite uniqueResults_urls. apply firstOccurrences_NoDup. Qed.

Lemma firstOccurrences_length (l : list string) :
  List.length (firstOccurrences l) <= List.length l.
Proof.
  induction l as [|x l IH]; cbn [firstOccurrences List.length]; [lia|].
  pose proof (filter_length_le (fun y => negb (y =? x)) (firstOccurrences l)). lia.
Qed.

Lemma citations_filter (chunks : option (list GroundingChunk)) :
  List.length (citations chunks)
  = List.length (filter citable (match chunks with Some cs => cs | None => [] end)).
Proof.
  destruct chunks as [cs|]; [|reflexivity]. cbn [citations].
  induction cs as [|c cs IH]; cbn [flat_map filter]; [reflexivity|].
  rewrite length_app, IH. unfold citable, citationOf.
  destruct (chunkUri c) as [[|a u]|], (chunkTitle c) as [[|b t]|]; reflexivity.
Qed.

(** ** The scan of the parts, when it succeeds *)

Lemma scanParts_some (ps : list Part) (u : string) :
  scanParts ps = Some u ->
  exists c d, u = "data:image/png;base64," ++ String c d.
Proof.
  induction ps as [|p ps IH]; cbn [scanParts]; [discriminate|].
  destruct (inlineData p) as [b|]; [|exact IH].
  destruct (data b) as [[|c d]|]; try exact IH.
  intros H. injection H as <-. now exists c, d.
Qed.

Lemma run_image_ok (generateContent : Provider) (request : GenerateContentParameters)
      (message u : string) :
  run generateContent
      (Await request (fun response => settle (imageOrThrow message response))) = Ok u ->
  exists c d, u = "data:image/png;base64," ++ String c d.
Proof.
  cbn [run]. destruct (generateContent request) as [response|e]; [|discriminate].
  rewrite Claims.run_settle. unfold imageOrThrow.
  destruct (scanParts (responseParts response)) eqn:E; [|discriminate].
  intros H. injection H as <-. now apply scanParts_some in E.
Qed.

(** ** The aspect words *)

Lemma includes_append_l (n a b : string) :
  includes n a = true -> includes n (a ++ b) = true.
Proof.
  rewrite !includes_iff. intros (x & y & ->). exists x, (y ++ b).
  now rewrite !append_assoc.
Qed.

Lemma includes_append_r (n a b : string) :
  includes n b = true -> includes n (a ++ b) = true.
Proof.
  rewrite !includes_iff. intros (x & y & ->). exists (a ++ x), y.
  now rewrite !append_assoc.
Qed.

Lemma toLowerCase_append (a b : string) :
  toLowerCase (a ++ b) = toLowerCase a ++ toLowerCase b.
Proof. apply mapChars_append. Qed.

Lemma ensureAspect_mentions (p : string) :
  includes "16:9" (toLowerCase (ensureAspect p))
  || includes "widescreen" (toLowerCase (ensureAspect p)) = true.
Proof.
  unfold ensureAspect.
  destruct (includes "16:9" (toLowerCase p)) eqn:E1; cbn [negb andb].
  - now rewrite E1.
  - destruct (includes "widescreen" (toLowerCase p)) eqn:E2; cbn [negb andb].
    + rewrite E1, E2. reflexivity.
    + rewrite toLowerCase_append.
      rewrite (@includes_append_l "16:9" (toLowerCase ASPECT_PREFIX) (toLowerCase p));
        reflexivity.
Qed.

Lemma in_firstn {A : Type} (n : nat) (l : list A) (x : A) :
  In x (firstn n l) -> In x l.
Proof.
  intros H. rewrite <- (firstn_skipn n l). apply in_or_app. now left.
Qed.

(** ** Trimming *)

Lemma trimEnd_cons (c : ascii) (t : string) :
  trimEnd (String c t) =
  match trimEnd t with
  | EmptyString => if isWhiteSpace c then EmptyString else String c EmptyString
  | String d t' => String c (String d t')
  end.
Proof. cbn [trimEnd]. now destruct (trimEnd t). Qed.

Lemma trimEnd_idem (s : string) : trimEnd (trimEnd s) = trimEnd s.
Proof.
  induction s as [|c t IH]; [reflexivity|].
  rewrite trimEnd_cons.
  destruct (trimEnd t) as [|d t'] eqn:E.
  - destruct (isWhiteSpace c) eqn:Ec; [reflexivity|].
    rewrite trimEnd_cons. cbn [trimEnd]. now rewrite Ec.
  - rewrite trimEnd_cons, IH. reflexivity.
Qed.

Lemma trimStart_head (s : string) :
  match trimStart s with
  | EmptyString => True
  | String c _ => isWhiteSpace c = false
  end.
Proof.
  induction s as [|c t IH]; cbn [trimStart]; [exact I|].
  destruct (isWhiteSpace c) eqn:E; [exact IH | exact E].
Qed.

Lemma trimStart_clean (s : string) :
  match s with
  | EmptyString => True
  | String c _ => isWhiteSpace c = false
  end -> trimStart s = s.
Proof. destruct s as [|c t]; cbn [trimStart]; [reflexivity | now intros ->]. Qed.

Lemma trimEnd_head (s : string) :
  match s with
  | EmptyString => True
  | String c _ => isWhiteSpace c = false
  end ->
  match trimEnd s with
  | EmptyString => True
  | String c _ => isWhiteSpace c = false
  end.
Proof.
  destruct s as [|c t]; [trivial|]. rewrite trimEnd_cons. intros Hc.
  destruct (trimEnd t); [now rewrite Hc | exact Hc].
Qed.

Lemma trim_idem (s : string) : trim (trim s) = trim s.
Proof.
  unfold trim.
  rewrite (trimStart_clean (trimEnd (trimStart s)))
    by apply trimEnd_head, trimStart_head.
  apply trimEnd_idem.
Qed.

(** ** Characters that survive *)

Lemma hasChar_trimStart (c : ascii) (s : string) :
  hasChar c s = false -> hasChar c (trimStart s) = false.
Proof.
  induction s as [|d t IH]; cbn [trimStart hasChar]; [reflexivity|].
  intros H. apply orb_false_iff in H. destruct H as [H1 H2].
  destruct (isWhiteSpace d); [now apply IH|]. cbn [hasChar]. now rewrite H1, H2.
Qed.

Lemma hasChar_trimEnd (c : ascii) (s : string) :
  hasChar c s = false -> hasChar c (trimEnd s) = false.
Proof.
  induction s as [|d t IH]; [reflexivity|].
  rewrite trimEnd_cons. cbn [hasChar].
  intros H. apply orb_false_iff in H. destruct H as [H1 H2].
  specialize (IH H2).
  destruct (trimEnd t) as [|x t'].
  - destruct (isWhiteSpace d); [reflexivity|]. cbn [hasChar]. now rewrite H1.
  - cbn [hasChar] in *. now rewrite H1, IH.
Qed.

Lemma hasChar_stripBullet (c : ascii) (s : string) :
  hasChar c s = false -> hasChar c (stripBullet s) = false.
Proof.
  destruct s as [|d t]; cbn [stripBullet]; [trivial|]. intros H.
  destruct (Ascii.eqb d "-"); [|exact H].
  cbn [hasChar] in H. apply orb_false_iff in H. now apply hasChar_trimStart.
Qed.

(** A piece of [split] does not hold the separator. *)
Lemma split_pieces (sep : ascii) (s : string) :
  forall piece, In piece (split sep s) -> hasChar sep piece = false.
Proof.
  induction s as [|c t IH]; cbn [split]; intros piece Hin.
  - destruct Hin as [<-|[]]. reflexivity.
  - destruct (Ascii.eqb c sep) eqn:E.
    + destruct Hin as [<-|Hin]; [reflexivity | now apply IH].
    + destruct (split sep t) as [|h r] eqn:Es.
      * destruct Hin as [<-|[]]. cbn [hasChar]. now rewrite E.
      * destruct Hin as [<-|Hin].
        -- cbn [hasChar]. rewrite E. apply IH. now left.
        -- apply IH. now right.
Qed.

End MoreFacts.

(* ================================================================== *)
(** * Responses in the requested format *)
(* ================================================================== *)

Module FormatFacts.
Import JsString Regex GenAI GeminiService Closed Samples Shapes.
Import StringFacts RegexFacts PatternFacts ServiceFacts MoreFacts.

Lemma nl_append (x : string) : nl ++ x = String LF x.
Proof. reflexivity. Qed.

Lemma charMatches_refl (c : ascii) : charMatches true c c = true.
Proof. unfold charMatches. apply N.eqb_refl. Qed.

Lemma prefixBy_self (h x : string) : prefixBy (charMatches true) h (h ++ x) = true.
Proof.
  induction h as [|c h IH]; cbn [append prefixBy]; [reflexivity|].
  now rewrite charMatches_refl.
Qed.

Lemma afterHeader_here (h x : string) : afterHeader h (h ++ x) = Some x.
Proof.
  destruct (h ++ x) eqn:E; cbn [afterHeader]; rewrite <- E;
    now rewrite prefixBy_self, drop_append.
Qed.

(** A header that cannot match a line feed does not reach across the end
    of a line. *)
Lemma prefixBy_line (h : string) :
  neverMatches h LF = true ->
  forall a b, prefixBy (charMatches true) h (a ++ String LF b) = prefixBy (charMatches true) h a.
Proof.
  induction h as [|x h IH]; intros Hn a b.
  - now destruct a.
  - cbn [neverMatches] in Hn. apply andb_true_iff in Hn. destruct Hn as [Hx Hn].
    apply negb_true_iff in Hx.
    destruct a as [|c a]; cbn [append prefixBy].
    + now rewrite Hx.
    + now rewrite (IH Hn).
Qed.

Lemma hasHeader_cons (h : string) (c : ascii) (l : string) :
  hasHeader h (String c l) = false ->
  prefixBy (charMatches true) h (String c l) = false /\ hasHeader h l = false.
Proof.
  unfold hasHeader. cbn [afterHeader].
  destruct (prefixBy (charMatches true) h (String c l)); [discriminate|]. now split.
Qed.

(** A line without the header is passed over. *)
Lemma afterHeader_line (line more : string) :
  hasHeader "IMAGE_PROMPT:" line = false ->
  afterHeader "IMAGE_PROMPT:" (line ++ String LF more) = afterHeader "IMAGE_PROMPT:" more.
Proof.
  induction line as [|c l IH]; intros Hh.
  - reflexivity.
  - apply hasHeader_cons in Hh. destruct Hh as [Hp Hl].
    change (String c l ++ String LF more) with (String c (l ++ String LF more)).
    cbn [afterHeader].
    change (String c (l ++ String LF more)) with (String c l ++ String LF more).
    rewrite prefixBy_line by reflexivity. rewrite Hp. now apply IH.
Qed.

Lemma untilStop_line (line more : string) :
  hasHeader "IMAGE_PROMPT:" line = false ->
  untilStop atPromptHeader (line ++ String LF more)
  = line ++ String LF (untilStop atPromptHeader more).
Proof.
  induction line as [|c l IH]; intros Hh.
  - reflexivity.
  - apply hasHeader_cons in Hh. destruct Hh as [Hp Hl].
    change (String c l ++ String LF more) with (String c (l ++ String LF more)).
    cbn [untilStop]. unfold atPromptHeader at 1.
    change (String c (l ++ String LF more)) with (String c l ++ String LF more).
    rewrite prefixBy_line by reflexivity. rewrite Hp.
    cbn [append]. now rewrite (IH Hl).
Qed.

(** ** Plain facts *)

Lemma plainFact_parts (f : string) :
  plainFact f = true ->
  f <> "" /\ trim f = f /\ hasChar LF f = false /\ hasHeader "IMAGE_PROMPT:" f = false.
Proof.
  unfold plainFact. rewrite !andb_true_iff, !negb_true_iff.
  intros [[[Hn Ht] Hc] Hh]. repeat split; try assumption.
  - intros ->. discriminate.
  - now apply String.eqb_eq.
Qed.

Lemma trimmed_ends (f : string) :
  trim f = f -> trimStart f = f /\ trimEnd f = f.
Proof.
  intros H.
  assert (Hs : trimStart f = f).
  { apply trimStart_clean. rewrite <- H. unfold trim.
    apply trimEnd_head, trimStart_head. }
  split; [exact Hs|]. unfold trim in H. now rewrite Hs in H.
Qed.

Lemma hasHeader_bullet (f : string) :
  hasHeader "IMAGE_PROMPT:" ("- " ++ f) = hasHeader "IMAGE_PROMPT:" f.
Proof. reflexivity. Qed.

(** ** The section of the bullets *)

Lemma bullets_cons (f : string) (fs : list string) (y : string) :
  bullets (f :: fs) ++ y = ("- " ++ f) ++ String LF (bullets fs ++ y).
Proof. cbn [bullets]. now rewrite !append_assoc. Qed.

Lemma afterHeader_bullets (fs : list string) (more : string) :
  forallb plainFact fs = true ->
  afterHeader "IMAGE_PROMPT:" (bullets fs ++ more) = afterHeader "IMAGE_PROMPT:" more.
Proof.
  induction fs as [|f fs IH]; intros Hp; [reflexivity|].
  cbn [forallb] in Hp. apply andb_true_iff in Hp. destruct Hp as [Hf Hfs].
  rewrite bullets_cons, afterHeader_line; [now apply IH|].
  rewrite hasHeader_bullet. now apply plainFact_parts in Hf.
Qed.

Lemma untilStop_bullets (fs : list string) (y : string) :
  forallb plainFact fs = true ->
  untilStop atPromptHeader (bullets fs ++ nl ++ "IMAGE_PROMPT:" ++ y) = bullets fs ++ nl.
Proof.
  induction fs as [|f fs IH]; intros Hp.
  - change (bullets [] ++ nl ++ "IMAGE_PROMPT:" ++ y)
      with ("" ++ String LF ("IMAGE_PROMPT:" ++ y)).
    rewrite (untilStop_line "" ("IMAGE_PROMPT:" ++ y)) by reflexivity.
    reflexivity.
  - cbn [forallb] in Hp. apply andb_true_iff in Hp. destruct Hp as [Hf Hfs].
    rewrite !bullets_cons, untilStop_line; [now rewrite (IH Hfs)|].
    rewrite hasHeader_bullet. now apply plainFact_parts in Hf.
Qed.

(** ** Lines of the trimmed section *)

Lemma trimEnd_spaces (a w : string) :
  trimEnd w = "" -> trimEnd (a ++ w) = trimEnd a.
Proof.
  intros Hw. induction a as [|c a IH]; cbn [append]; [exact Hw|].
  now rewrite !trimEnd_cons, IH.
Qed.

Lemma trimEnd_keeps (a b : string) :
  trimEnd b <> "" -> trimEnd (a ++ b) = a ++ trimEnd b.
Proof.
  intros Hb. induction a as [|c a IH]; cbn [append]; [reflexivity|].
  rewrite trimEnd_cons, IH.
  destruct (a ++ trimEnd b) eqn:E; [|reflexivity].
  destruct a; [now elim Hb | discriminate].
Qed.

Lemma split_whole (sep : ascii) (s : string) :
  hasChar sep s = false -> split sep s = [s].
Proof.
  induction s as [|c t IH]; cbn [split hasChar]; [reflexivity|].
  intros H. apply orb_false_iff in H. destruct H as [H1 H2].
  now rewrite H1, (IH H2).
Qed.

Lemma split_line (sep : ascii) (a b : string) :
  hasChar sep a = false -> split sep (a ++ String sep b) = a :: split sep b.
Proof.
  induction a as [|c a IH]; cbn [append split hasChar]; intros H.
  - now rewrite Ascii.eqb_refl.
  - apply orb_false_iff in H. destruct H as [H1 H2].
    now rewrite H1, (IH H2).
Qed.

Lemma lines_of_bullets (f : string) (fs : list string) :
  forallb plainFact (f :: fs) = true ->
  trimEnd (bullets (f :: fs) ++ nl) <> "" /\
  split LF (trimEnd (bullets (f :: fs) ++ nl))
  = map (fun g => "- " ++ g) (f :: fs).
Proof.
  revert f. induction fs as [|g fs IH]; intros f Hp;
    cbn [forallb] in Hp; apply andb_true_iff in Hp; destruct Hp as [Hf Hfs];
    apply plainFact_parts in Hf; destruct Hf as (Hne & Ht & Hc & _);
    apply trimmed_ends in Ht; destruct Ht as [_ He].
  - assert (E : trimEnd (bullets [f] ++ nl) = "- " ++ f).
    { cbn [bullets]. rewrite !append_assoc.
      change ("- " ++ f ++ nl ++ "" ++ nl) with ("- " ++ (f ++ (nl ++ nl))).
      rewrite <- append_assoc, trimEnd_spaces by reflexivity.
      rewrite trimEnd_keeps; rewrite He; [reflexivity | exact Hne]. }
    rewrite E. split; [discriminate|].
    cbn [map]. apply split_whole. exact Hc.
  - destruct (IH g Hfs) as [Hn Hs].
    assert (E : trimEnd (bullets (f :: g :: fs) ++ nl)
                = ("- " ++ f) ++ String LF (trimEnd (bullets (g :: fs) ++ nl))).
    { rewrite bullets_cons, trimEnd_keeps.
      - rewrite trimEnd_cons.
        destruct (trimEnd (bullets (g :: fs) ++ nl)); [now elim Hn | reflexivity].
      - rewrite trimEnd_cons.
        destruct (trimEnd (bullets (g :: fs) ++ nl)); [now elim Hn | discriminate]. }
    rewrite E. split; [discriminate|].
    rewrite split_line by exact Hc. rewrite Hs. reflexivity.
Qed.

Lemma clean_bullet_line (f : string) :
  plainFact f = true -> trim (stripBullet ("- " ++ f)) = f.
Proof.
  intros Hf. apply plainFact_parts in Hf. destruct Hf as (_ & Ht & _).
  change ("- " ++ f) with (String "-" (" " ++ f)). rewrite clean_bulleted.
  unfold trim. change (trimStart (" " ++ f)) with (trimStart f). exact Ht.
Qed.

Lemma factsOfLines_bullets (fs : list string) :
  forallb plainFact fs = true ->
  factsOfLines (map (fun g => "- " ++ g) fs) = firstn 5 fs.
Proof.
  intros Hp. unfold factsOfLines. f_equal. rewrite map_map.
  rewrite forallb_forall in Hp.
  rewrite (map_ext_in _ (fun g => g)), map_id.
  - apply DedupFacts.filter_true. intros g Hg.
    apply Hp, plainFact_parts in Hg. destruct Hg as (Hne & _).
    destruct g; [now elim Hne | reflexivity].
  - intros g Hg. apply clean_bullet_line. now apply Hp.
Qed.

(** The facts and the prompt of a formatted text. *)
Lemma facts_of_formatted (fs : list string) (p : string) :
  forallb plainFact fs = true ->
  factsOfLines (factLines (formatted fs p)) = firstn 5 fs.
Proof.
  intros Hp. unfold factLines, factsSection, formatted.
  rewrite afterHeader_here.
  destruct fs as [|f fs].
  - reflexivity.
  - rewrite nl_append.
    change (trimStart (String LF (bullets (f :: fs) ++ nl ++ "IMAGE_PROMPT:" ++ nl ++ p)))
      with (bullets (f :: fs) ++ nl ++ "IMAGE_PROMPT:" ++ nl ++ p).
    rewrite untilStop_bullets by exact Hp.
    unfold trim.
    change (trimStart (bullets (f :: fs) ++ nl)) with (bullets (f :: fs) ++ nl).
    destruct (lines_of_bullets f fs Hp) as [_ Hs]. rewrite Hs.
    now apply factsOfLines_bullets.
Qed.

Lemma prompt_of_formatted (fs : list string) (p topic li si : string) :
  forallb plainFact fs = true ->
  basePrompt (formatted fs p) topic li si = trim p.
Proof.
  intros Hp. unfold basePrompt, promptSection, formatted.
  rewrite nl_append, (afterHeader_line "FACTS:") by reflexivity.
  rewrite afterHeader_bullets by exact Hp.
  change (nl ++ "IMAGE_PROMPT:" ++ nl ++ p)
    with ("" ++ String LF ("IMAGE_PROMPT:" ++ nl ++ p)).
  rewrite (afterHeader_line "") by reflexivity.
  rewrite afterHeader_here.
  unfold trim.
  change (trimStart (nl ++ p)) with (trimStart p).
  now rewrite trimStart_idem.
Qed.

(** ** The first header *)

Lemma prefixBy_length (cmp : ascii -> ascii -> bool) (h x : string) :
  prefixBy cmp h x = true -> length h <= length x.
Proof.
  revert x; induction h as [|a h IH]; intros [|b x]; cbn [prefixBy length];
    intros H; try discriminate; try lia.
  apply andb_true_iff in H. destruct H as [_ H]. apply IH in H. lia.
Qed.

Lemma prefixBy_within (cmp : ascii -> ascii -> bool) (h x y : string) :
  length h <= length x -> prefixBy cmp h (x ++ y) = prefixBy cmp h x.
Proof.
  revert x; induction h as [|a h IH]; intros x Hl.
  - now destruct x, y.
  - destruct x as [|b x]; cbn [length] in Hl; [lia|].
    cbn [append prefixBy]. rewrite IH by lia. reflexivity.
Qed.

Lemma prefixBy_across (cmp : ascii -> ascii -> bool) (h x y : string) :
  length x < length h -> prefixBy cmp h (x ++ y) = true ->
  prefixBy cmp (drop (length x) h) y = true.
Proof.
  revert h; induction x as [|b x IH]; intros h Hl H.
  - now rewrite drop_0.
  - destruct h as [|a h]; cbn [length] in Hl; [lia|].
    cbn [append prefixBy] in H. apply andb_true_iff in H. destruct H as [_ H].
    cbn [length drop]. apply IH; [lia | exact H].
Qed.

(** No proper tail of the header starts the header again: an occurrence
    cannot begin before the header and run into it. *)
Lemma header_no_overlap (n : nat) (post : string) :
  1 <= n < 13 ->
  prefixBy (charMatches true) (drop n "IMAGE_PROMPT:") ("IMAGE_PROMPT:" ++ post) = false.
Proof.
  intros Hn.
  assert (Hall : forallb (fun n => negb (prefixBy (charMatches true)
                                           (drop n "IMAGE_PROMPT:")
                                           ("IMAGE_PROMPT:" ++ post)))
                         (seq 1 12) = true) by reflexivity.
  rewrite forallb_forall in Hall.
  apply negb_true_iff, Hall, in_seq. lia.
Qed.

Lemma prefixBy_before_header (x post : string) :
  x <> "" ->
  prefixBy (charMatches true) "IMAGE_PROMPT:" (x ++ "IMAGE_PROMPT:" ++ post)
  = prefixBy (charMatches true) "IMAGE_PROMPT:" x.
Proof.
  intros Hx.
  destruct (le_lt_dec (length "IMAGE_PROMPT:") (length x)) as [Hl|Hl].
  - now apply prefixBy_within.
  - destruct (prefixBy (charMatches true) "IMAGE_PROMPT:" x) eqn:E1.
    + apply prefixBy_length in E1. lia.
    + destruct (prefixBy _ _ (x ++ _)) eqn:E2; [|reflexivity].
      apply prefixBy_across in E2; [|exact Hl].
      rewrite header_no_overlap in E2; [discriminate|].
      split; [|exact Hl]. destruct x; [now elim Hx | cbn [length]; lia].
Qed.

(** With no header before it, the header written out is the first. *)
Lemma afterHeader_first (pre post : string) :
  hasHeader "IMAGE_PROMPT:" pre = false ->
  afterHeader "IMAGE_PROMPT:" (pre ++ "IMAGE_PROMPT:" ++ post) = Some post.
Proof.
  induction pre as [|c pre IH]; intros Hh.
  - apply (afterHeader_here "IMAGE_PROMPT:" post).
  - apply hasHeader_cons in Hh. destruct Hh as [Hp Hl].
    change (String c pre ++ "IMAGE_PROMPT:" ++ post)
      with (String c (pre ++ "IMAGE_PROMPT:" ++ post)).
    cbn [afterHeader].
    change (String c (pre ++ "IMAGE_PROMPT:" ++ post))
      with (String c pre ++ "IMAGE_PROMPT:" ++ post).
    rewrite prefixBy_before_header by discriminate. rewrite Hp. now apply IH.
Qed.

(** ** Other image types *)

Lemma prefix_same_head (a b s : string) :
  prefix (a ++ b) (a ++ s) = prefix b s.
Proof.
  induction a as [|c a IH]; cbn [append prefix]; [reflexivity|].
  destruct (ascii_dec c c) as [_|C]; [exact IH | now elim C].
Qed.

Lemma mime_is_read_to_the_semicolon (m mime x y : string) :
  hasChar ";" m = false -> hasChar ";" mime = false ->
  prefix (m ++ String ";" x) (mime ++ String ";" y) = true -> m = mime.
Proof.
  revert mime; induction m as [|a m IH]; intros [|c mime] Hm Hc H;
    cbn [append prefix hasChar] in *.
  - reflexivity.
  - destruct (ascii_dec ";" c) as [<-|_]; [|discriminate].
    now rewrite Ascii.eqb_refl in Hc.
  - destruct (ascii_dec a ";") as [->|_]; [|discriminate].
    now rewrite Ascii.eqb_refl in Hm.
  - apply orb_false_iff in Hm. apply orb_false_iff in Hc.
    destruct (ascii_dec a c) as [->|_]; [|discriminate].
    f_equal. now apply IH.
Qed.

Lemma stripDataUri_other (mime rest : string) :
  hasChar ";" mime = false ->
  ~ In mime ["png"; "jpeg"; "jpg"] ->
  stripDataUri ("data:image/" ++ mime ++ ";base64," ++ rest)
  = "data:image/" ++ mime ++ ";base64," ++ rest.
Proof.
  intros Hc Hn. unfold stripDataUri.
  assert (Hno : forall m, In m ["png"; "jpeg"; "jpg"] ->
                prefix ("data:image/" ++ m ++ ";base64,")
                       ("data:image/" ++ mime ++ ";base64," ++ rest) = false).
  { intros m Hm. rewrite prefix_same_head.
    destruct (prefix (m ++ ";base64,") (mime ++ ";base64," ++ rest)) eqn:E;
      [|reflexivity].
    apply mime_is_read_to_the_semicolon in E.
    - subst m. now elim Hn.
    - destruct Hm as [<-|[<-|[<-|[]]]]; reflexivity.
    - exact Hc. }
  change "data:image/png;base64," with ("data:image/" ++ "png" ++ ";base64,").
  change "data:image/jpeg;base64," with ("data:image/" ++ "jpeg" ++ ";base64,").
  change "data:image/jpg;base64," with ("data:image/" ++ "jpg" ++ ";base64,").
  rewrite (Hno "png"), (Hno "jpeg"), (Hno "jpg"); cbn [In]; tauto.
Qed.

(** ** What follows the prompt header does not reach the facts *)

Lemma prefixBy_break (h : string) (c : ascii) :
  neverMatches h c = true ->
  forall a b, prefixBy (charMatches true) h (a ++ String c b)
              = prefixBy (charMatches true) h a.
Proof.
  induction h as [|x h IH]; intros Hn a b.
  - now destruct a.
  - cbn [neverMatches] in Hn. apply andb_true_iff in Hn. destruct Hn as [Hx Hn].
    apply negb_true_iff in Hx.
    destruct a as [|d a]; cbn [append prefixBy].
    + now rewrite Hx.
    + now rewrite (IH Hn).
Qed.

Lemma drop_app_le (n : nat) (x y : string) :
  n <= length x -> drop n (x ++ y) = drop n x ++ y.
Proof.
  revert x; induction n as [|n IH]; intros x Hl.
  - now rewrite !drop_0.
  - destruct x as [|c x]; cbn [length] in Hl; [lia|].
    cbn [append drop]. apply IH. lia.
Qed.

Lemma afterHeader_facts_kept (a b : string) :
  hasHeader "FACTS:" a = true ->
  afterHeader "FACTS:" (a ++ "IMAGE_PROMPT:" ++ b)
  = option_map (fun s => s ++ "IMAGE_PROMPT:" ++ b) (afterHeader "FACTS:" a).
Proof.
  induction a as [|c a IH]; intros Hh; [discriminate|].
  unfold hasHeader in Hh. cbn [afterHeader] in Hh.
  change (String c a ++ "IMAGE_PROMPT:" ++ b)
    with (String c (a ++ "IMAGE_PROMPT:" ++ b)).
  cbn [afterHeader].
  change (String c (a ++ "IMAGE_PROMPT:" ++ b))
    with (String c a ++ String "I" ("MAGE_PROMPT:" ++ b)).
  rewrite prefixBy_break by reflexivity.
  destruct (prefixBy (charMatches true) "FACTS:" (String c a)) eqn:Ep.
  - cbn [option_map]. f_equal. apply drop_app_le.
    now apply prefixBy_length in Ep.
  - change (a ++ String "I" ("MAGE_PROMPT:" ++ b)) with (a ++ "IMAGE_PROMPT:" ++ b).
    apply IH. unfold hasHeader. exact Hh.
Qed.

Lemma trimStart_app (w x : string) :
  match x with
  | EmptyString => False
  | String c _ => isWhiteSpace c = false
  end -> trimStart (w ++ x) = trimStart w ++ x.
Proof.
  intros Hx. induction w as [|c w IH]; cbn [append trimStart].
  - destruct x as [|d x]; [destruct Hx|]. cbn [trimStart]. now rewrite Hx.
  - destruct (isWhiteSpace c); [exact IH | reflexivity].
Qed.

Lemma untilStop_cut (s b : string) :
  untilStop atPromptHeader (s ++ "IMAGE_PROMPT:" ++ b)
  = untilStop atPromptHeader (s ++ "IMAGE_PROMPT:").
Proof.
  induction s as [|c s IH]; [reflexivity|].
  change (String c s ++ "IMAGE_PROMPT:" ++ b)
    with (String c (s ++ "IMAGE_PROMPT:" ++ b)).
  change (String c s ++ "IMAGE_PROMPT:") with (String c (s ++ "IMAGE_PROMPT:")).
  cbn [untilStop]. rewrite IH. unfold atPromptHeader.
  replace (String c (s ++ "IMAGE_PROMPT:" ++ b))
    with (String c (s ++ "IMAGE_PROMPT:") ++ b)
    by (cbn [append]; now rewrite append_assoc).
  rewrite prefixBy_within; [reflexivity|].
  cbn [length]. rewrite length_append. cbn [length]. lia.
Qed.

Lemma factsSection_cut (a b : string) :
  hasHeader "FACTS:" a = true ->
  factsSection (a ++ "IMAGE_PROMPT:" ++ b) = factsSection (a ++ "IMAGE_PROMPT:").
Proof.
  intros Hh. unfold factsSection.
  rewrite (afterHeader_facts_kept a b Hh).
  change (a ++ "IMAGE_PROMPT:") with (a ++ "IMAGE_PROMPT:" ++ "").
  rewrite (afterHeader_facts_kept a "" Hh).
  destruct (afterHeader "FACTS:" a) as [after|]; cbn [option_map]; [|reflexivity].
  f_equal. rewrite !trimStart_app by reflexivity.
  now rewrite untilStop_cut.
Qed.

End FormatFacts.

(* ================================================================== *)
(** * More properties of the operations *)
(* ================================================================== *)

Module Properties.
Import JsString Regex GenAI GeminiService Closed Samples Shapes.
Import StringFacts RegexFacts PatternFacts DedupFacts OccurrenceFacts ServiceFacts.
Import MoreFacts FormatFacts.

Ltac decide_case x v :=
  destruct (String.eqb_spec x v) as [->|?].

Ltac differ := apply String.eqb_neq; vm_compute; reflexivity.

(** X1.  Two levels get the same instruction from [getLevelInstruction]
    exactly when they are the same level or neither is one of Elementary,
    High School, College and Expert: the four have instructions of their
    own, and every other value, whatever its spelling, gets the general
    one. *)
Theorem level_instructions_tell_levels_apart :
  forall a b : ComplexityLevel,
    getLevelInstruction a = getLevelInstruction b
    <-> a = b \/ (~ In a recognisedLevels /\ ~ In b recognisedLevels).
Proof.
  intros a b. unfold getLevelInstruction, recognisedLevels.
  decide_case a "Elementary"; [|decide_case a "High School";
    [|decide_case a "College"; [|decide_case a "Expert"]]];
  (decide_case b "Elementary"; [|decide_case b "High School";
    [|decide_case b "College"; [|decide_case b "Expert"]]]);
  cbn [In];
  try (split; [intros _; left; reflexivity | reflexivity]);
  try (split; [intros H; exfalso; revert H; differ | intros [H|[H1 H2]]; [congruence | exfalso; tauto]]).
  split; [intros _; right; split; intuition congruence | reflexivity].
Qed.

Ltac walk_styles x :=
  decide_case x "Minimalist"; [|decide_case x "Realistic";
    [|decide_case x "Cartoon"; [|decide_case x "Vintage";
      [|decide_case x "Futuristic"; [|decide_case x "3D Render";
        [|decide_case x "Sketch"]]]]]].

(** X2.  Two styles get the same instruction from [getStyleInstruction]
    exactly when they are the same style or neither is one of the seven
    styles with a [case]; every other value gets the modern scientific
    one. *)
Theorem style_instructions_tell_styles_apart :
  forall a b : VisualStyle,
    getStyleInstruction a = getStyleInstruction b
    <-> a = b \/ (~ In a recognisedStyles /\ ~ In b recognisedStyles).
Proof.
  intros a b. unfold getStyleInstruction, recognisedStyles.
  walk_styles a; walk_styles b; cbn [In];
  try (split; [intros _; left; reflexivity | reflexivity]);
  try (split; [intros H; exfalso; revert H; differ
              | intros [H|[H1 H2]]; [congruence | exfalso; tauto]]).
  split; [intros _; right; split; intuition congruence | reflexivity].
Qed.

(* ---------------------------------------------------------------- *)


(** X4.  What the provider throws comes out of every operation unchanged:
    the error is neither caught nor wrapped, and no result is made up. *)
Theorem provider_errors_pass_through :
  forall (generateContent : Provider) (topic : string) (level : ComplexityLevel)
         (style : VisualStyle) (language : Language)
         (prompt image1 instruction1 image2 instruction2 : string)
         (e1 e2 e3 e4 : JsError),
    generateContent (researchRequest topic level style language) = Throw e1 ->
    generateContent (generateRequest prompt) = Throw e2 ->
    generateContent (fixRequest image1 instruction1) = Throw e3 ->
    generateContent (editRequest image2 instruction2) = Throw e4 ->
    run generateContent (researchTopicForPrompt topic level style language) = Throw e1 /\
    run generateContent (generateInfographicImage prompt) = Throw e2 /\
    run generateContent (fixInfographicImage image1 instruction1) = Throw e3 /\
    run generateContent (editInfographicImage image2 instruction2) = Throw e4.
Proof.
  intros gc topic level style language prompt image1 instruction1 image2 instruction2
         e1 e2 e3 e4 H1 H2 H3 H4.
  unfold researchTopicForPrompt, generateInfographicImage,
    fixInfographicImage, editInfographicImage.
  cbn [run]. rewrite H1, H2, H3, H4. repeat split.
Qed.

Lemma provider_errors_pass_through_witness :
  failing (ProviderError "quota exceeded")
          (researchRequest "Bees" "College" "Sketch" "English")
  = Throw (ProviderError "quota exceeded") /\
  run (failing (ProviderError "quota exceeded"))
      (researchTopicForPrompt "Bees" "College" "Sketch" "English")
  = Throw (ProviderError "quota exceeded") /\
  run (failing (ProviderError "quota exceeded"))
      (editInfographicImage "aGk=" "Bigger title")
  = Throw (ProviderError "quota exceeded").
Proof.
  split; [reflexivity|].
  destruct (@provider_errors_pass_through
              (failing (ProviderError "quota exceeded"))
              "Bees" "College" "Sketch" "English" "A chart"
              "aGk=" "Fix the title" "aGk=" "Bigger title"
              _ _ _ _ eq_refl eq_refl eq_refl eq_refl)
    as (Hr & _ & _ & He).
  split; [exact Hr | exact He].
Defined.

(* ---------------------------------------------------------------- *)

(** X5.  When the citable chunks of a response have distinct urls, the
    search results are those chunks' citations, all of them, in the order
    of the chunks and with the chunks' own titles. *)
Theorem distinct_urls_are_all_kept :
  forall (generateContent : Provider) (topic : string) (level : ComplexityLevel)
         (style : VisualStyle) (language : Language)
         (response : GenerateContentResponse),
    generateContent (researchRequest topic level style language) = Ok response ->
    NoDup (map url (citations (chunksOf response))) ->
    exists r,
      run generateContent (researchTopicForPrompt topic level style language) = Ok r /\
      searchResults r = citations (chunksOf response).
Proof.
  intros gc topic level style language response H Hnd.
  eexists. split; [apply (research_run _ _ _ _ _ H)|].
  cbn [searchResults]. now apply uniqueResults_NoDup_id.
Qed.

Lemma distinct_urls_are_all_kept_witness :
  let chunks := [webChunk "u1" "T1"; mkChunk None; webChunk "u2" "T2"] in
  answering (grounded twoFacts chunks)
            (researchRequest "Bees" "College" "Sketch" "English")
  = Ok (grounded twoFacts chunks) /\
  NoDup (map url (citations (chunksOf (grounded twoFacts chunks)))) /\
  exists r,
    run (answering (grounded twoFacts chunks))
        (researchTopicForPrompt "Bees" "College" "Sketch" "English") = Ok r /\
    searchResults r = [mkItem "T1" "u1"; mkItem "T2" "u2"].
Proof.
  intros chunks.
  assert (Hnd : NoDup (map url (citations (chunksOf (grounded twoFacts chunks))))).
  { cbn. constructor; [intros [H|[]]; discriminate|].
    constructor; [intros []|constructor]. }
  split; [reflexivity|]. split; [exact Hnd|].
  destruct (@distinct_urls_are_all_kept
              (answering (grounded twoFacts chunks))
              "Bees" "College" "Sketch" "English"
              (grounded twoFacts chunks) eq_refl Hnd)
    as (r & Hr & Hs).
  exists r. split; [exact Hr | exact Hs].
Defined.

(** X6.  Removing duplicates a second time changes nothing: the Map
    collapse of [uniqueResults] leaves its own output as it is. *)
Theorem uniqueResults_is_idempotent :
  forall items : list SearchResultItem,
    uniqueResults (uniqueResults items) = uniqueResults items.
Proof.
  intros items. apply uniqueResults_NoDup_id, uniqueResults_NoDup.
Qed.

(** X7.  There are never more search results than chunks that have both
    a uri and a title, and there are none exactly when no chunk has both:
    when the response has no candidate, no grounding metadata or no chunk
    list, or when every chunk lacks a web reference, a uri or a title or has
    an empty one. *)
Theorem search_results_bounded_by_citable_chunks :
  forall (generateContent : Provider) (topic : string) (level : ComplexityLevel)
         (style : VisualStyle) (language : Language)
         (response : GenerateContentResponse),
    generateContent (researchRequest topic level style language) = Ok response ->
    exists r,
      run generateContent (researchTopicForPrompt topic level style language) = Ok r /\
      List.length (searchResults r)
      <= List.length (filter citable (chunkList response)) /\
      (searchResults r = []
       <-> forall chunk, In chunk (chunkList response) -> citable chunk = false).
Proof.
  intros gc topic level style language response H.
  eexists. split; [apply (research_run _ _ _ _ _ H)|].
  cbn [searchResults]. unfold chunkList. split.
  - rewrite <- citations_filter.
    rewrite <- (length_map url (uniqueResults _)), uniqueResults_urls.
    rewrite <- (length_map url (citations _)). apply firstOccurrences_length.
  - pose proof (citations_filter (chunksOf response)) as Hlen.
    pose proof (uniqueResults_urls (citations (chunksOf response))) as Hu.
    split.
    + intros E. rewrite E in Hu. cbn [map] in Hu.
      destruct (citations (chunksOf response)) as [|it its] eqn:Ec.
      * cbn [List.length] in Hlen. symmetry in Hlen. apply length_zero_iff_nil in Hlen.
        intros chunk Hin.
        destruct (citable chunk) eqn:Eb; [|reflexivity].
        assert (Hf : In chunk (filter citable
                                  (match chunksOf response with
                                   | Some cs => cs | None => [] end)))
          by (apply filter_In; now split).
        rewrite Hlen in Hf. destruct Hf.
      * cbn [map firstOccurrences] in Hu. discriminate.
    + intros Hall.
      assert (Hnil : filter citable (match chunksOf response with
                                     | Some cs => cs | None => [] end) = []).
      { destruct (filter citable _) as [|c l] eqn:Ef; [reflexivity|].
        assert (Hc : In c (filter citable (match chunksOf response with
                                           | Some cs => cs | None => [] end)))
          by (rewrite Ef; now left).
        apply filter_In in Hc. destruct Hc as [Hin Hc].
        rewrite (Hall c Hin) in Hc. discriminate. }
      rewrite Hnil in Hlen. cbn [List.length] in Hlen.
      apply length_zero_iff_nil in Hlen. now rewrite Hlen.
Qed.

Lemma search_results_bounded_by_citable_chunks_witness :
  let chunks := [mkChunk None; mkChunk (Some (mkWeb (Some "u1") None));
                 mkChunk (Some (mkWeb (Some "") (Some "T")))] in
  answering (grounded twoFacts chunks)
            (researchRequest "Bees" "College" "Sketch" "English")
  = Ok (grounded twoFacts chunks) /\
  exists r,
    run (answering (grounded twoFacts chunks))
        (researchTopicForPrompt "Bees" "College" "Sketch" "English") = Ok r /\
    searchResults r = [].
Proof.
  intros chunks. split; [reflexivity|].
  destruct (@search_results_bounded_by_citable_chunks
              (answering (grounded twoFacts chunks))
              "Bees" "College" "Sketch" "English"
              (grounded twoFacts chunks) eq_refl)
    as (r & Hr & _ & Hnone).
  exists r. split; [exact Hr|]. apply Hnone.
  intros chunk [<-|[<-|[<-|[]]]]; reflexivity.
Defined.

(* ---------------------------------------------------------------- *)

(** X8.  The image prompt that [researchTopicForPrompt] returns always
    names the aspect: put in lower case it holds 16:9 or widescreen,
    whether the response had a prompt of its own, one without those words,
    or none. *)
Theorem image_prompt_always_names_the_aspect :
  forall (generateContent : Provider) (topic : string) (level : ComplexityLevel)
         (style : VisualStyle) (language : Language)
         (response : GenerateContentResponse),
    generateContent (researchRequest topic level style language) = Ok response ->
    exists r,
      run generateContent (researchTopicForPrompt topic level style language) = Ok r /\
      includes "16:9" (toLowerCase (imagePrompt r))
      || includes "widescreen" (toLowerCase (imagePrompt r)) = true.
Proof.
  intros gc topic level style language response H.
  eexists. split; [apply (research_run _ _ _ _ _ H)|].
  cbn [imagePrompt]. unfold finishPrompt. rewrite toLowerCase_append.
  pose proof (ensureAspect_mentions
                (basePrompt (responseText response) topic
                            (getLevelInstruction level) (getStyleInstruction style)))
    as Hm.
  apply orb_true_iff in Hm. apply orb_true_iff.
  destruct Hm as [Hm|Hm]; [left | right]; now apply includes_append_l.
Qed.

Lemma image_prompt_always_names_the_aspect_witness :
  answering (textOnly twoFacts) (researchRequest "Bees" "College" "Sketch" "English")
  = Ok (textOnly twoFacts) /\
  exists r,
    run (answering (textOnly twoFacts))
        (researchTopicForPrompt "Bees" "College" "Sketch" "English") = Ok r /\
    includes "16:9" (toLowerCase (imagePrompt r))
    || includes "widescreen" (toLowerCase (imagePrompt r)) = true.
Proof.
  split; [reflexivity|].
  exact (@image_prompt_always_names_the_aspect
           (answering (textOnly twoFacts)) "Bees" "College" "Sketch" "English"
           (textOnly twoFacts) eq_refl).
Defined.

(* ---------------------------------------------------------------- *)

(** X9.  What an image operation returns can be handed back as it is: a
    result of [generateInfographicImage], [fixInfographicImage] or
    [editInfographicImage] is data:image/png;base64, followed by a
    non-empty payload, and [fixInfographicImage] and
    [editInfographicImage] attach exactly that payload when given the
    result as their image. *)
Theorem image_results_feed_back :
  forall (generateContent : Provider) (prompt image instruction uri : string),
    run generateContent (generateInfographicImage prompt) = Ok uri \/
    run generateContent (fixInfographicImage image instruction) = Ok uri \/
    run generateContent (editInfographicImage image instruction) = Ok uri ->
    exists payload,
      payload <> "" /\
      uri = "data:image/png;base64," ++ payload /\
      forall (next : Provider) (instruction' : string),
        map data (flat_map inlineBlobs
                    (sent next (fixInfographicImage uri instruction')))
        = [Some payload] /\
        map data (flat_map inlineBlobs
                    (sent next (editInfographicImage uri instruction')))
        = [Some payload].
Proof.
  intros gc prompt image instruction uri H.
  assert (Hu : exists c d, uri = "data:image/png;base64," ++ String c d).
  { destruct H as [H|[H|H]]; apply run_image_ok in H; exact H. }
  destruct Hu as (c & d & ->). exists (String c d).
  split; [discriminate|]. split; [reflexivity|].
  intros next instruction'.
  unfold fixInfographicImage, editInfographicImage. rewrite !Claims.sent_single.
  cbn [flat_map inlineBlobs fixRequest editRequest contents inlinePart textPart
       inlineData app map data].
  unfold cleanBase64. rewrite replace_dataUri, stripDataUri_png.
  split; reflexivity.
Qed.

Lemma image_results_feed_back_witness :
  let response := withParts [textPart "Here it is"; inlinePart "image/png" "QUJD"] in
  run (answering response) (generateInfographicImage "A chart")
  = Ok "data:image/png;base64,QUJD" /\
  exists payload,
    "data:image/png;base64,QUJD" = "data:image/png;base64," ++ payload /\
    map data (flat_map inlineBlobs
                (sent (answering response)
                      (editInfographicImage "data:image/png;base64,QUJD" "Bigger title")))
    = [Some payload].
Proof.
  intros response. split; [reflexivity|].
  destruct (@image_results_feed_back (answering response)
              "A chart" "aGk=" "Fix the title" "data:image/png;base64,QUJD"
              (or_introl eq_refl))
    as (payload & _ & Hu & Hnext).
  exists payload. split; [exact Hu|].
  exact (proj2 (Hnext (answering response) "Bigger title")).
Defined.

(** X10.  The image operations read the first candidate only: two
    responses with the same first candidate give the same result, whatever
    other candidates and whatever text they carry, and a response with no
    candidate gives the error. *)
Theorem only_the_first_candidate_counts :
  forall (g1 g2 : Provider) (prompt : string)
         (t1 t2 : option string) (first : Candidate) (others1 others2 : list Candidate),
    g1 (generateRequest prompt) = Ok (mkResponse t1 (Some (first :: others1))) ->
    g2 (generateRequest prompt) = Ok (mkResponse t2 (Some (first :: others2))) ->
    run g1 (generateInfographicImage prompt) = run g2 (generateInfographicImage prompt) /\
    (forall g3 t3,
        g3 (generateRequest prompt) = Ok (mkResponse t3 (Some [])) ->
        run g3 (generateInfographicImage prompt)
        = Throw (Error "Failed to generate image")).
Proof.
  intros g1 g2 prompt t1 t2 first others1 others2 H1 H2.
  unfold generateInfographicImage. split.
  - now rewrite (Claims.run_single _ _ _ H1), (Claims.run_single _ _ _ H2).
  - intros g3 t3 H3. now rewrite (Claims.run_single _ _ _ H3).
Qed.

Lemma only_the_first_candidate_counts_witness :
  let image := mkCandidate (Some (mkContent (Some [inlinePart "image/png" "QUJD"]))) None in
  let empty := mkCandidate None None in
  let r1 := mkResponse None (Some [empty; image]) in
  let r2 := mkResponse (Some "text") (Some [empty]) in
  answering r1 (generateRequest "A chart") = Ok r1 /\
  answering r2 (generateRequest "A chart") = Ok r2 /\
  run (answering r1) (generateInfographicImage "A chart")
  = run (answering r2) (generateInfographicImage "A chart").
Proof.
  intros image empty r1 r2.
  split; [reflexivity|]. split; [reflexivity|].
  exact (proj1 (@only_the_first_candidate_counts
                  (answering r1) (answering r2) "A chart"
                  None (Some "text") empty [image] [] eq_refl eq_refl)).
Defined.

(* ---------------------------------------------------------------- *)

(** X11.  Every fact that [researchTopicForPrompt] returns is a clean
    single line: it is not empty, it has no white space at either end, and
    it holds no line feed. *)
Theorem facts_are_clean_lines :
  forall (generateContent : Provider) (topic : string) (level : ComplexityLevel)
         (style : VisualStyle) (language : Language)
         (response : GenerateContentResponse),
    generateContent (researchRequest topic level style language) = Ok response ->
    exists r,
      run generateContent (researchTopicForPrompt topic level style language) = Ok r /\
      forall f, In f (facts r) ->
                f <> "" /\ trim f = f /\ hasChar LF f = false.
Proof.
  intros gc topic level style language response H.
  eexists. split; [apply (research_run _ _ _ _ _ H)|].
  cbn [facts]. unfold factsOfLines. intros f Hin.
  apply in_firstn, filter_In in Hin. destruct Hin as [Hin Hne].
  apply in_map_iff in Hin. destruct Hin as (l & <- & Hl).
  split; [|split].
  - intros E. rewrite E in Hne. discriminate.
  - apply trim_idem.
  - unfold trim. apply hasChar_trimEnd, hasChar_trimStart, hasChar_stripBullet.
    unfold factLines in Hl. now apply split_pieces in Hl.
Qed.

Lemma facts_are_clean_lines_witness :
  answering (textOnly eightFacts) (researchRequest "Bees" "College" "Sketch" "English")
  = Ok (textOnly eightFacts) /\
  exists r,
    run (answering (textOnly eightFacts))
        (researchTopicForPrompt "Bees" "College" "Sketch" "English") = Ok r /\
    forall f, In f (facts r) -> f <> "" /\ trim f = f /\ hasChar LF f = false.
Proof.
  split; [reflexivity|].
  exact (@facts_are_clean_lines
           (answering (textOnly eightFacts)) "Bees" "College" "Sketch" "English"
           (textOnly eightFacts) eq_refl).
Defined.

(* ---------------------------------------------------------------- *)

(** X12.  A response written in the format the system prompt asks for is
    read back: when the text is the FACTS: header, one line per fact behind
    a hyphen and a space, an empty line, the IMAGE_PROMPT: header and the
    prompt, and every fact is a non-empty trimmed single line without the
    prompt header in it, the facts returned are the first five of those
    facts, unchanged and in order, and the image prompt is the trimmed
    prompt with the aspect sentence in front if it needs one and the
    quality sentence behind. *)
Theorem formatted_response_is_read_back :
  forall (generateContent : Provider) (topic : string) (level : ComplexityLevel)
         (style : VisualStyle) (language : Language)
         (response : GenerateContentResponse) (fs : list string) (p : string),
    generateContent (researchRequest topic level style language) = Ok response ->
    responseText response = formatted fs p ->
    forallb plainFact fs = true ->
    exists r,
      run generateContent (researchTopicForPrompt topic level style language) = Ok r /\
      facts r = firstn 5 fs /\
      imagePrompt r = ensureAspect (trim p) ++ QUALITY_SUFFIX.
Proof.
  intros gc topic level style language response fs p H Ht Hp.
  eexists. split; [apply (research_run _ _ _ _ _ H)|].
  cbn [facts imagePrompt]. rewrite Ht. split.
  - now apply facts_of_formatted.
  - unfold finishPrompt. now rewrite prompt_of_formatted.
Qed.

Lemma formatted_response_is_read_back_witness :
  let fs := ["Bees have five eyes."; "A hive holds up to 60,000 bees.";
             "Honey never spoils."] in
  let response := textOnly (formatted fs "  A widescreen chart of a hive  ") in
  answering response (researchRequest "Bees" "College" "Sketch" "English")
  = Ok response /\
  forallb plainFact fs = true /\
  exists r,
    run (answering response)
        (researchTopicForPrompt "Bees" "College" "Sketch" "English") = Ok r /\
    facts r = fs /\
    imagePrompt r = "A widescreen chart of a hive" ++ QUALITY_SUFFIX.
Proof.
  intros fs response.
  split; [reflexivity|]. split; [vm_compute; reflexivity|].
  destruct (@formatted_response_is_read_back
              (answering response) "Bees" "College" "Sketch" "English"
              response fs "  A widescreen chart of a hive  "
              eq_refl eq_refl)
    as (r & Hr & Hf & Hp); [vm_compute; reflexivity|].
  exists r. split; [exact Hr|]. split; [exact Hf|].
  rewrite Hp. vm_compute. reflexivity.
Defined.

(** X13.  The image prompt is what follows the first IMAGE_PROMPT:
    header: when the text is some text without the header, the header, and
    the rest, the returned prompt is made from the whole rest, trimmed,
    whatever the rest holds, further headers included. *)
Theorem image_prompt_is_all_after_first_header :
  forall (generateContent : Provider) (topic : string) (level : ComplexityLevel)
         (style : VisualStyle) (language : Language)
         (response : GenerateContentResponse) (before rest : string),
    generateContent (researchRequest topic level style language) = Ok response ->
    responseText response = before ++ "IMAGE_PROMPT:" ++ rest ->
    hasHeader "IMAGE_PROMPT:" before = false ->
    exists r,
      run generateContent (researchTopicForPrompt topic level style language) = Ok r /\
      imagePrompt r = ensureAspect (trim rest) ++ QUALITY_SUFFIX.
Proof.
  intros gc topic level style language response before rest H Ht Hh.
  eexists. split; [apply (research_run _ _ _ _ _ H)|].
  cbn [imagePrompt]. unfold finishPrompt, basePrompt, promptSection.
  rewrite Ht, (afterHeader_first _ _ Hh).
  unfold trim. now rewrite trimStart_idem.
Qed.

Lemma image_prompt_is_all_after_first_header_witness :
  let response :=
    textOnly ("Intro. IMAGE_PROMPT: 16:9 poster. FACTS: none IMAGE_PROMPT: again ") in
  answering response (researchRequest "Bees" "College" "Sketch" "English")
  = Ok response /\
  hasHeader "IMAGE_PROMPT:" "Intro. " = false /\
  exists r,
    run (answering response)
        (researchTopicForPrompt "Bees" "College" "Sketch" "English") = Ok r /\
    imagePrompt r
    = "16:9 poster. FACTS: none IMAGE_PROMPT: again" ++ QUALITY_SUFFIX.
Proof.
  intros response. split; [reflexivity|]. split; [reflexivity|].
  destruct (@image_prompt_is_all_after_first_header
              (answering response) "Bees" "College" "Sketch" "English" response
              "Intro. " " 16:9 poster. FACTS: none IMAGE_PROMPT: again "
              eq_refl eq_refl eq_refl)
    as (r & Hr & Hp).
  exists r. split; [exact Hr|]. rewrite Hp. vm_compute. reflexivity.
Defined.

(** X14.  What follows the IMAGE_PROMPT: header does not reach the facts:
    two responses whose texts agree up to and including that header, with
    the FACTS: header before it, give the same facts, whatever prompts
    follow. *)
Theorem prompt_text_does_not_reach_the_facts :
  forall (g1 g2 : Provider) (topic : string) (level : ComplexityLevel)
         (style : VisualStyle) (language : Language)
         (response1 response2 : GenerateContentResponse)
         (before rest1 rest2 : string),
    g1 (researchRequest topic level style language) = Ok response1 ->
    g2 (researchRequest topic level style language) = Ok response2 ->
    responseText response1 = before ++ "IMAGE_PROMPT:" ++ rest1 ->
    responseText response2 = before ++ "IMAGE_PROMPT:" ++ rest2 ->
    hasHeader "FACTS:" before = true ->
    exists r1 r2,
      run g1 (researchTopicForPrompt topic level style language) = Ok r1 /\
      run g2 (researchTopicForPrompt topic level style language) = Ok r2 /\
      facts r1 = facts r2.
Proof.
  intros g1 g2 topic level style language response1 response2 before rest1 rest2
         H1 H2 Ht1 Ht2 Hh.
  do 2 eexists.
  split; [apply (research_run _ _ _ _ _ H1)|].
  split; [apply (research_run _ _ _ _ _ H2)|].
  cbn [facts]. unfold factLines. rewrite Ht1, Ht2.
  now rewrite (factsSection_cut before rest1 Hh), (factsSection_cut before rest2 Hh).
Qed.

Lemma prompt_text_does_not_reach_the_facts_witness :
  let before := "FACTS:" ++ nl ++ "- A" ++ nl ++ "- B" ++ nl in
  let response1 := textOnly (before ++ "IMAGE_PROMPT:" ++ " Foo") in
  let response2 := textOnly (before ++ "IMAGE_PROMPT:" ++ nl ++ "FACTS:" ++ nl ++ "- C") in
  answering response1 (researchRequest "Bees" "College" "Sketch" "English")
  = Ok response1 /\
  answering response2 (researchRequest "Bees" "College" "Sketch" "English")
  = Ok response2 /\
  hasHeader "FACTS:" before = true /\
  exists r1 r2,
    run (answering response1)
        (researchTopicForPrompt "Bees" "College" "Sketch" "English") = Ok r1 /\
    run (answering response2)
        (researchTopicForPrompt "Bees" "College" "Sketch" "English") = Ok r2 /\
    facts r1 = facts r2.
Proof.
  intros before response1 response2.
  split; [reflexivity|]. split; [reflexivity|]. split; [reflexivity|].
  exact (@prompt_text_does_not_reach_the_facts
           (answering response1) (answering response2)
           "Bees" "College" "Sketch" "English" response1 response2
           before " Foo" (nl ++ "FACTS:" ++ nl ++ "- C")
           eq_refl eq_refl eq_refl eq_refl eq_refl).
Defined.

(* ---------------------------------------------------------------- *)

(** X15.  An image of a type other than png, jpeg and jpg keeps its
    data-URI prefix: for a type without a semicolon in it, such as gif or
    webp, [fixInfographicImage] and [editInfographicImage] attach the whole
    string, prefix included, and label it image/jpeg. *)
Theorem other_image_types_keep_their_prefix :
  forall (generateContent : Provider) (mime rest instruction : string),
    hasChar ";" mime = false ->
    ~ In mime ["png"; "jpeg"; "jpg"] ->
    let image := "data:image/" ++ mime ++ ";base64," ++ rest in
    flat_map inlineBlobs (sent generateContent (fixInfographicImage image instruction))
    = [mkBlob (Some "image/jpeg") (Some image)] /\
    flat_map inlineBlobs (sent generateContent (editInfographicImage image instruction))
    = [mkBlob (Some "image/jpeg") (Some image)].
Proof.
  intros gc mime rest instruction Hc Hn image.
  unfold fixInfographicImage, editInfographicImage. rewrite !Claims.sent_single.
  cbn [flat_map inlineBlobs fixRequest editRequest contents inlinePart textPart
       inlineData app].
  unfold cleanBase64, image. rewrite replace_dataUri, (stripDataUri_other _ Hc Hn).
  split; reflexivity.
Qed.

Lemma other_image_types_keep_their_prefix_witness :
  hasChar ";" "webp" = false /\
  ~ In "webp" ["png"; "jpeg"; "jpg"] /\
  flat_map inlineBlobs
           (sent (answering (withParts []))
                 (editInfographicImage "data:image/webp;base64,UklGRg==" "Bigger title"))
  = [mkBlob (Some "image/jpeg") (Some "data:image/webp;base64,UklGRg==")].
Proof.
  assert (Hn : ~ In "webp" ["png"; "jpeg"; "jpg"]).
  { intros [H|[H|[H|[]]]]; discriminate. }
  split; [reflexivity|]. split; [exact Hn|].
  exact (proj2 (@other_image_types_keep_their_prefix
                  (answering (withParts [])) "webp" "UklGRg==" "Bigger title"
                  eq_refl Hn)).
Defined.

(* ---------------------------------------------------------------- *)

Lemma includes_quoted (t a b : string) :
  includes (dq ++ t ++ dq) (a ++ dq ++ t ++ dq ++ b) = true.
Proof.
  replace (a ++ dq ++ t ++ dq ++ b) with (a ++ (dq ++ t ++ dq) ++ b)
    by now rewrite !append_assoc.
  apply includes_append.
Qed.

Lemma includes_head (t b : string) : includes t (t ++ b) = true.
Proof. apply includes_prefix, prefix_append. Qed.

Lemma includes_self (t : string) : includes t t = true.
Proof. rewrite <- (append_nil_r t) at 2. apply includes_head. Qed.

(** A line of a joined text is in the text. *)
Lemma includes_concat (t sep x : string) (ls : list string) :
  In x ls -> includes t x = true -> includes t (concat sep ls) = true.
Proof.
  intros Hin Ht. induction ls as [|y ys IH]; [destruct Hin|].
  cbn [concat]. destruct Hin as [->|Hin].
  - destruct ys; [exact Ht | now apply includes_append_l].
  - destruct ys as [|z zs]; [destruct Hin|].
    apply includes_append_r, includes_append_r, IH, Hin.
Qed.

Ltac in_list := solve [left; reflexivity | right; in_list].

(** X16.  The one request of [researchTopicForPrompt] goes to the text
    model with the search tool switched on and no sampling parameters, and
    its instruction text holds the topic between double quotes, the
    instruction of the level and the instruction of the style word for
    word, the language after Language: and again in the typography line,
    each whatever characters it is made of. *)
Theorem research_request_carries_the_inputs :
  forall (generateContent : Provider) (topic : string) (level : ComplexityLevel)
         (style : VisualStyle) (language : Language),
    exists doc,
      sent generateContent (researchTopicForPrompt topic level style language)
      = [mkParams "gemini-2.5-flash" (ContentString doc)
                  (Some (mkConfig (Some [GoogleSearch]) None None None))] /\
      includes (dq ++ topic ++ dq) doc = true /\
      includes (getLevelInstruction level) doc = true /\
      includes (getStyleInstruction style) doc = true /\
      includes ("Language: " ++ language) doc = true /\
      includes ("readable text in " ++ language ++ ")") doc = true.
Proof.
  intros gc topic level style language. eexists. split.
  - unfold researchTopicForPrompt. rewrite Claims.sent_single. reflexivity.
  - unfold systemPrompt.
    generalize (getLevelInstruction level) (getStyleInstruction style).
    intros li si.
    split; [|split; [|split; [|split]]].
    + apply (@includes_concat _ _
               ("    Your goal is to research the topic: " ++ dq ++ topic ++ dq
                  ++ " and create a detailed prompt for a professional infographic."));
        [in_list | apply includes_quoted].
    + apply (@includes_concat _ _ ("    " ++ li));
        [in_list | apply includes_append_r, includes_self].
    + apply (@includes_concat _ _ ("    " ++ si));
        [in_list | apply includes_append_r, includes_self].
    + apply (@includes_concat _ _ ("    Language: " ++ language)); [in_list|].
      apply (@includes_append_r _ "    " ("Language: " ++ language)), includes_self.
    + apply (@includes_concat _ _
               ("    - Typography guidance (large, readable text in " ++ language ++ ")"));
        [in_list|].
      apply (@includes_append_r _ "    - Typography guidance (large, "
               ("readable text in " ++ language ++ ")")), includes_self.
Qed.

(* ---------------------------------------------------------------- *)

(** X17.  The caller's words go out as they are: the one text part of the
    request of [generateInfographicImage] starts with the prompt given, that
    of [editInfographicImage] starts with the instruction given, and that of
    [fixInfographicImage] holds the correction between Instruction: and a
    full stop; all three requests go to the image model, and the request of
    [generateInfographicImage] carries no image. *)
Theorem image_requests_carry_the_callers_text :
  forall (generateContent : Provider) (prompt image instruction : string),
    (exists t,
        flat_map textsOf (sent generateContent (generateInfographicImage prompt)) = [t] /\
        prefix prompt t = true) /\
    (exists t,
        flat_map textsOf
                 (sent generateContent (editInfographicImage image instruction)) = [t] /\
        prefix instruction t = true) /\
    (exists t,
        flat_map textsOf
                 (sent generateContent (fixInfographicImage image instruction)) = [t] /\
        includes ("Instruction: " ++ instruction ++ ".") t = true) /\
    flat_map inlineBlobs (sent generateContent (generateInfographicImage prompt)) = [] /\
    map model (sent generateContent (generateInfographicImage prompt)
               ++ sent generateContent (editInfographicImage image instruction)
               ++ sent generateContent (fixInfographicImage image instruction))%list
    = ["gemini-2.5-flash-image"; "gemini-2.5-flash-image"; "gemini-2.5-flash-image"].
Proof.
  intros gc prompt image instruction.
  unfold generateInfographicImage, editInfographicImage, fixInfographicImage.
  rewrite !Claims.sent_single.
  split; [|split; [|split; [|split; reflexivity]]].
  - eexists. split; [reflexivity|]. unfold enhancedPrompt. cbn [concat].
    apply prefix_append.
  - eexists. split; [reflexivity|]. unfold enhancedInstruction. cbn [concat].
    apply prefix_append.
  - eexists. split; [reflexivity|]. unfold fixPrompt.
    apply (@includes_concat _ _ ("    Instruction: " ++ instruction ++ "."));
      [in_list|].
    apply (@includes_append_r _ "    " ("Instruction: " ++ instruction ++ ".")),
      includes_self.
Qed.

(** X18.  Every search result that [researchTopicForPrompt] returns has a
    title and a url that are not empty, and is the title and uri of one of
    the chunks of the response. *)
Theorem search_results_have_title_and_url :
  forall (generateContent : Provider) (topic : string) (level : ComplexityLevel)
         (style : VisualStyle) (language : Language)
         (response : GenerateContentResponse),
    generateContent (researchRequest topic level style language) = Ok response ->
    exists r,
      run generateContent (researchTopicForPrompt topic level style language) = Ok r /\
      forall it, In it (searchResults r) ->
        title it <> "" /\ url it <> "" /\
        exists chunk, In chunk (chunkList response) /\
                      chunkTitle chunk = Some (title it) /\
                      chunkUri chunk = Some (url it).
Proof.
  intros gc topic level style language response H.
  eexists. split; [apply (research_run _ _ _ _ _ H)|].
  cbn [searchResults]. intros it Hin.
  apply uniqueResults_last in Hin. destruct Hin as (l1 & l2 & E & _).
  assert (Hc : In it (citations (chunksOf response)))
    by (rewrite E; apply in_or_app; right; now left).
  unfold citations, chunkList in *.
  destruct (chunksOf response) as [cs|]; [|destruct Hc].
  apply in_flat_map in Hc. destruct Hc as (chunk & Hchunk & Hit).
  unfold citationOf in Hit.
  destruct (chunkUri chunk) as [[|a u]|] eqn:Eu; [destruct Hit| |destruct Hit].
  destruct (chunkTitle chunk) as [[|b t]|] eqn:Et; [destruct Hit| |destruct Hit].
  destruct Hit as [<-|[]]. cbn [title url].
  split; [discriminate|]. split; [discriminate|].
  exists chunk. now rewrite Eu, Et.
Qed.

Lemma search_results_have_title_and_url_witness :
  answering (grounded twoFacts threeChunks)
            (researchRequest "Bees" "College" "Sketch" "English")
  = Ok (grounded twoFacts threeChunks) /\
  exists r,
    run (answering (grounded twoFacts threeChunks))
        (researchTopicForPrompt "Bees" "College" "Sketch" "English") = Ok r /\
    forall it, In it (searchResults r) -> title it <> "" /\ url it <> "".
Proof.
  split; [reflexivity|].
  destruct (@search_results_have_title_and_url
              (answering (grounded twoFacts threeChunks))
              "Bees" "College" "Sketch" "English"
              (grounded twoFacts threeChunks) eq_refl)
    as (r & Hr & Hall).
  exists r. split; [exact Hr|].
  intros it Hin. destruct (Hall it Hin) as (Ht & Hu & _). now split.
Defined.

End Properties.
